(** * postgresql_setting: reconciling one PostgreSQL configuration parameter

    A shallow embedding of the Ansible module [postgresql_setting] in its two
    source variants,

    - [src/postgresql_setting.py] (module [Modern]: bound query parameters and
      [psycopg2.sql] identifiers), and
    - [src/library/postgresql_setting.py] (module [Early]: statements built
      with Python's [%] string formatting),

    together with the properties of the reconciliation logic.

    Layout: Python values and exceptions, the statements the two variants
    send, the [psycopg2] cursor as a state-and-exception monad over an
    arbitrary server, the two variants, a model of the settings catalog
    ([Pg]), a lexer for the statement texts, and then the theorems. *)

From Stdlib Require Import ZArith String Ascii List Bool Lia.
From stdpp Require Import base option list strings gmap fin_maps pretty.

Local Open Scope string_scope.
Local Open Scope Z_scope.

(** ** Python values *)

(** What a result column can hold once [psycopg2] has converted it. *)
Inductive Value : Type :=
  | VNone
  | VBool (b : bool)
  | VInt (z : Z)
  | VStr (s : string).

(** Python truth value, as tested by [if v] and [not v]. *)
Definition truthy (v : Value) : bool :=
  match v with
  | VNone => false
  | VBool b => b
  | VInt z => negb (z =? 0)
  | VStr s => negb (String.eqb s "")
  end.

(** Python [==] on these values ([bool] is a subclass of [int]). *)
Definition py_eq (a b : Value) : bool :=
  match a, b with
  | VNone, VNone => true
  | VBool x, VBool y => Bool.eqb x y
  | VInt x, VInt y => x =? y
  | VBool x, VInt y | VInt y, VBool x => (if x then 1 else 0) =? y
  | VStr x, VStr y => String.eqb x y
  | _, _ => false
  end.

(** [str(v)], which is what ["%s" % v] inserts. *)
Definition py_str (v : Value) : string :=
  match v with
  | VNone => "None"
  | VBool true => "True"
  | VBool false => "False"
  | VInt z => pretty z
  | VStr s => s
  end.

(** A row of a result set; [DictCursor] rows still index by position. *)
Definition Row : Type := list Value.

(** ** What the module hands back to Ansible *)

(** [module.exit_json(changed=..., guc=...)] or [module.fail_json(msg=...)];
    the [exception=traceback.format_exc()] text of [fail_json] is left out. *)
Inductive Exit : Type :=
  | exit_json (changed : bool) (name : string)
  | fail_json (msg : string).

(** ** Exceptions *)

Inductive Exn : Type :=
  | DatabaseError (msg : string)      (* psycopg2.Error raised by execute *)
  | ProgrammingError (msg : string)   (* fetch with no result set *)
  | TypeError (msg : string)          (* None[0] *)
  | IndexError (msg : string)         (* row[i] out of range *)
  | SystemExit (e : Exit).            (* raised by exit_json / fail_json *)

(** [to_native(e)] / [str(e)] / ["%s" % e] of an exception. *)
Definition exn_str (e : Exn) : string :=
  match e with
  | DatabaseError m | ProgrammingError m | TypeError m | IndexError m => m
  | SystemExit _ => ""
  end.

(** ** psycopg2.sql composition (modern variant) *)

Module sql.

Inductive Composable : Type :=
  | SQL (s : string)
  | Identifier (s : string).

Definition dquote : ascii := ascii_of_nat 34.
Definition squote : ascii := ascii_of_nat 39.

(** [s.replace(q, q + q)] on one character [q]. *)
Fixpoint double_char (q : ascii) (s : string) : string :=
  match s with
  | EmptyString => EmptyString
  | String c rest =>
      if Ascii.eqb c q then String q (String q (double_char q rest))
      else String c (double_char q rest)
  end.

(** [Identifier.as_string]: the name between double quotes, every double
    quote inside it doubled. *)
Definition quote_ident (s : string) : string :=
  String dquote (double_char dquote s ++ String dquote EmptyString).

Definition as_string1 (c : Composable) : string :=
  match c with
  | SQL s => s
  | Identifier s => quote_ident s
  end.

(** [Composed.as_string]. *)
Definition as_string (cs : list Composable) : string :=
  fold_right (fun c acc => as_string1 c ++ acc) "" cs.

(** [SQL(template).format(args...)] for templates whose only fields are the
    automatically numbered [{}], one argument given for each: the literal
    text before each field (dropped when empty, as [psycopg2] does)
    followed by the argument. *)
Fixpoint format_from (lit : string) (template : string)
    (args : list Composable) : list Composable :=
  let flush := match lit with EmptyString => [] | _ => [SQL lit] end in
  match template with
  | EmptyString => flush
  | String "{" (String "}" rest) =>
      match args with
      | a :: args' => (flush ++ a :: format_from "" rest args')%list
      | [] => flush
      end
  | String c rest => format_from (lit ++ String c EmptyString) rest args
  end.

Definition format (template : string) (args : list Composable)
    : list Composable :=
  format_from "" template args.

End sql.

(** ** Statements

    One constructor per [cursor.execute] call of the two source files.  A
    server is handed the statement; [sql_text] and [sql_args] give the text
    and the bound arguments that the source builds for it. *)

Inductive Query : Type :=
  (* src/postgresql_setting.py *)
  | Q_is_guc_configurable (guc : string)
  | Q_get_default_guc_value (guc : string)
  | Q_is_guc_default (guc : string)
  | Q_guc_exists (guc : string)
  | Q_do_guc_reset (guc : string)
  | Q_do_guc_set (guc value : string)
  | Q_guc_matches (guc value : string)
  (* src/library/postgresql_setting.py *)
  | Q_option_ispreset (option : string)
  | Q_option_get_default_value (option : string)
  | Q_option_isdefault (option : string)
  | Q_option_exists (option : string)
  | Q_option_reset (option default : string)
  | Q_option_set (option value : string)
  | Q_option_matches (option value : string).

(** The text passed to [cursor.execute], character for character. *)
Definition sql_text (q : Query) : string :=
  match q with
  | Q_is_guc_configurable _ => "
        SELECT EXISTS
            (SELECT 1
             FROM pg_settings
             WHERE context <> 'internal'
             AND name = %s);
        "
  | Q_get_default_guc_value _ => "
        SELECT boot_val
        FROM pg_settings
        WHERE name = %s;
        "
  | Q_is_guc_default _ => "
        SELECT EXISTS
            (SELECT 1
             FROM pg_settings
             WHERE boot_val = reset_val
             AND name = %s);
        "
  | Q_guc_exists _ => "
        SELECT name
        FROM pg_settings
        WHERE name = %s;
        "
  | Q_do_guc_reset guc =>
      sql.as_string (sql.format "ALTER SYSTEM RESET {}" [sql.Identifier guc])
  | Q_do_guc_set guc _ =>
      sql.as_string (sql.format "ALTER SYSTEM SET {} TO %s" [sql.Identifier guc])
  | Q_guc_matches _ _ => "SELECT current_setting(%s) = %s"
  | Q_option_ispreset option =>
      "SELECT EXISTS(SELECT 1 FROM pg_settings WHERE context = 'internal' AND name = '"
        ++ option ++ "')"
  | Q_option_get_default_value option =>
      "SELECT boot_val FROM pg_settings WHERE name = '" ++ option ++ "'"
  | Q_option_isdefault option =>
      "SELECT boot_val, reset_val FROM pg_settings WHERE name = '" ++ option ++ "'"
  | Q_option_exists option =>
      "SELECT name FROM pg_settings WHERE name = '" ++ option ++ "'"
  | Q_option_reset option default =>
      "ALTER SYSTEM SET " ++ option ++ " TO " ++ default
  | Q_option_set option value =>
      "ALTER SYSTEM SET " ++ option ++ " TO '" ++ value ++ "'"
  | Q_option_matches option value =>
      "SELECT current_setting('" ++ option ++ "') = '" ++ value ++ "'"
  end.

(** The tuple of bound arguments passed next to the text (none in the early
    variant, which formats its inputs into the text). *)
Definition sql_args (q : Query) : list string :=
  match q with
  | Q_is_guc_configurable guc | Q_get_default_guc_value guc
  | Q_is_guc_default guc | Q_guc_exists guc => [guc]
  | Q_do_guc_reset _ => []
  | Q_do_guc_set _ value => [value]
  | Q_guc_matches guc value => [guc; value]
  | _ => []
  end.

(** The mutating statements: every [ALTER SYSTEM]. *)
Definition is_write (q : Query) : bool :=
  match q with
  | Q_do_guc_reset _ | Q_do_guc_set _ _
  | Q_option_reset _ _ | Q_option_set _ _ => true
  | _ => false
  end.

Definition writes (qs : list Query) : list Query := List.filter is_write qs.

(** ** The server side of a connection *)

(** How a server answers one statement. *)
Inductive Reply : Type :=
  | QueryFailed (msg : string)     (* the statement raised *)
  | Tuples (rows : list Row)        (* a result set *)
  | CommandOk.                      (* a command with no result set *)

(** ** The cursor

    [conn] is the state of the server behind the connection (autocommit is
    on, so a statement's effect is final when [execute] returns), [pending]
    the rows of the last result set not fetched yet, [rowcount] as in
    [psycopg2], [statements] the statements executed so far, oldest first,
    and [warnings] what [module.warn] collected. *)
Record Session (db : Type) : Type := mkSession {
  conn : db;
  pending : option (list Row);
  rowcount : Z;
  statements : list Query;
  warnings : list string
}.
Arguments mkSession {db} _ _ _ _ _.
Arguments conn {db} _.
Arguments pending {db} _.
Arguments rowcount {db} _.
Arguments statements {db} _.
Arguments warnings {db} _.

(** A cursor just opened on a connection. *)
Definition open_cursor {db} (d : db) : Session db :=
  mkSession d None (-1) [] [].

Inductive Res (A : Type) : Type :=
  | Ok (a : A)
  | Raise (e : Exn).
Arguments Ok {A} _.
Arguments Raise {A} _.

(** Python code running against a session: it returns or raises, and
    leaves a session behind either way. *)
Definition Py (db A : Type) : Type := Session db -> Res A * Session db.

Definition ret {db A} (a : A) : Py db A := fun s => (Ok a, s).
Definition raise {db A} (e : Exn) : Py db A := fun s => (Raise e, s).
Definition bind {db A B} (m : Py db A) (k : A -> Py db B) : Py db B :=
  fun s => match m s with
           | (Ok a, s') => k a s'
           | (Raise e, s') => (Raise e, s')
           end.

Declare Scope py_scope.
Delimit Scope py_scope with py.
Notation "x <- m ;; k" := (bind m (fun x => k))
  (at level 100, m at next level, right associativity) : py_scope.
Notation "m ;; k" := (bind m (fun _ => k))
  (at level 100, right associativity) : py_scope.
Local Open Scope py_scope.

(** [try: m except Exception as e: h e], which lets [SystemExit] through
    (it is not an [Exception]). *)
Definition try_except {db A} (m : Py db A) (h : Exn -> Py db A) : Py db A :=
  fun s => match m s with
           | (Raise (SystemExit x), s') => (Raise (SystemExit x), s')
           | (Raise e, s') => h e s'
           | r => r
           end.

Section Cursor.

Context {db : Type}.

(** The server: its answer to a statement and its state afterwards. *)
Variable exec : Query -> db -> Reply * db.

(** [cursor.execute(text, args)], the statement [q] standing for its text
    [sql_text q] and its arguments [sql_args q]; an error of the server is
    raised as an exception. *)
Definition execute (q : Query) : Py db unit :=
  fun s =>
    let (r, d) := exec q (conn s) in
    let log := (statements s ++ [q])%list in
    match r with
    | QueryFailed msg =>
        (Raise (DatabaseError msg), mkSession d None (-1) log (warnings s))
    | Tuples rows =>
        (Ok tt, mkSession d (Some rows) (Z.of_nat (length rows)) log (warnings s))
    | CommandOk =>
        (Ok tt, mkSession d None (-1) log (warnings s))
    end.

(** [cursor.fetchone()]: the next row, [None] when the result set is
    used up; it raises when the last statement produced no result set. *)
Definition fetchone : Py db (option Row) :=
  fun s =>
    match pending s with
    | None => (Raise (ProgrammingError "no results to fetch"), s)
    | Some [] => (Ok None, s)
    | Some (r :: rest) =>
        (Ok (Some r),
         mkSession (conn s) (Some rest) (rowcount s) (statements s) (warnings s))
    end.

(** [cursor.rowcount]. *)
Definition get_rowcount : Py db Z := fun s => (Ok (rowcount s), s).

(** [row[i]] on what [fetchone] returned. *)
Definition getitem (row : option Row) (i : nat) : Py db Value :=
  match row with
  | None => raise (TypeError "'NoneType' object is not subscriptable")
  | Some r =>
      match nth_error r i with
      | Some v => ret v
      | None => raise (IndexError "list index out of range")
      end
  end.

(** [module.warn(msg)]. *)
Definition warn (msg : string) : Py db unit :=
  fun s => (Ok tt, mkSession (conn s) (pending s) (rowcount s) (statements s)
                    (warnings s ++ [msg])%list).

(** [module.exit_json] and [module.fail_json] leave through [SystemExit]. *)
Definition module_exit {A} (e : Exit) : Py db A := raise (SystemExit e).

End Cursor.

(** ** The Ansible module object

    [params] is [module.params]: [AnsibleModule] stores every key of
    [argument_spec] there, with its default when the caller gave none, so a
    key is read with the total lookup.  [check_mode] is [module.check_mode]. *)
Record AnsibleModule : Type := mkModule {
  params : gmap string string;
  check_mode : bool
}.

(** ** Connection keywords (the same lines in both source files) *)

Definition params_map : gmap string string :=
  list_to_map [("login_host", "host"); ("login_user", "user");
               ("login_password", "password"); ("port", "port")].

(** [dict((params_map[k], v) for (k, v) in iteritems(module.params)
          if k in params_map and v != '')]; in a Python [dict] built from
    pairs the last pair of a key wins. *)
Definition kw_pair (kv : string * string) : option (string * string) :=
  match params_map !! kv.1 with
  | Some k' => if String.eqb kv.2 "" then None else Some (k', kv.2)
  | None => None
  end.

Definition kw_of_params (p : gmap string string) : gmap string string :=
  list_to_map (reverse (omap kw_pair (map_to_list p))).

(** ["host" not in kw or kw["host"] == "" or kw["host"] == "localhost"]. *)
Definition is_localhost (kw : gmap string string) : bool :=
  match kw !! "host" with
  | None => true
  | Some h => String.eqb h "" || String.eqb h "localhost"
  end.

(** The keywords handed to [psycopg2.connect] next to [database="postgres"]. *)
Definition connect_kwargs (p : gmap string string) : gmap string string :=
  let kw := kw_of_params p in
  if is_localhost kw && negb (String.eqb (p !!! "login_unix_socket") "")
  then <["host" := p !!! "login_unix_socket"]> kw
  else kw.

(** ** The modern variant: src/postgresql_setting.py *)

(** ["Guc %s does not exist or is preset" % guc]. *)
Definition modern_warning (guc : string) : string :=
  "Guc " ++ guc ++ " does not exist or is preset".

Module Modern.
Section Modern.

Context {db : Type}.
Variable exec : Query -> db -> Reply * db.

(** [postgresqldb_found]: whether [import psycopg2] succeeded. *)
Variable postgresqldb_found : bool.

(** [psycopg2.connect(database="postgres", **kw)] followed by switching
    autocommit on and opening the cursor: the message of the exception
    when that fails. *)
Variable connect : gmap string string -> option string.

Definition is_guc_configurable (guc : string) : Py db Value :=
  execute exec (Q_is_guc_configurable guc) ;;
  row <- fetchone ;;
  getitem row 0.

Definition get_default_guc_value (guc : string) : Py db Value :=
  execute exec (Q_get_default_guc_value guc) ;;
  row <- fetchone ;;
  getitem row 0.

Definition is_guc_default (guc : string) : Py db Value :=
  execute exec (Q_is_guc_default guc) ;;
  row <- fetchone ;;
  getitem row 0.

Definition guc_exists (guc : string) : Py db bool :=
  execute exec (Q_guc_exists guc) ;;
  n <- get_rowcount ;;
  ret (0 <? n).

Definition guc_matches (guc value : string) : Py db Value :=
  execute exec (Q_guc_matches guc value) ;;
  row <- fetchone ;;
  getitem row 0.

Definition do_guc_reset (guc : string) : Py db bool :=
  d <- is_guc_default guc ;;
  if negb (truthy d) then
    execute exec (Q_do_guc_reset guc) ;;
    ret true
  else ret false.

Definition do_guc_set (guc value : string) : Py db bool :=
  m <- guc_matches guc value ;;
  if negb (truthy m) then
    execute exec (Q_do_guc_set guc value) ;;
    ret true
  else ret false.

(** The body of the second [try] of [main]; the value returned is the
    local variable [changed] when the block is left normally.  The inner
    [except SQLParseError] clauses catch nothing that is raised here. *)
Definition reconcile (module : AnsibleModule) : Py db bool :=
  let guc := params module !!! "guc" in
  let value := params module !!! "value" in
  let state := params module !!! "state" in
  c <- is_guc_configurable guc ;;
  if truthy c then
    (if check_mode module then
       changed <- (if String.eqb state "absent" then
                     d <- is_guc_default guc ;; ret (negb (truthy d))
                   else if String.eqb state "present" then
                     m <- guc_matches guc value ;; ret (negb (truthy m))
                   else ret false) ;;
       module_exit (exit_json changed guc)
     else ret tt) ;;
    if String.eqb state "absent" then do_guc_reset guc
    else if String.eqb state "present" then do_guc_set guc value
    else ret false
  else
    warn (modern_warning guc) ;;
    ret false.

(** [main()], run against the server state [d]; it always leaves through
    [exit_json] or [fail_json].  Nothing raises [NotSupportedError], so of
    the handlers of the second [try] only [except SystemExit] and
    [except Exception] are in play. *)
Definition main (module : AnsibleModule) (d : db) : Res unit * Session db :=
  let guc := params module !!! "guc" in
  if negb postgresqldb_found then
    module_exit (fail_json "the python psycopg2 module is required")
      (open_cursor d)
  else
    match connect (connect_kwargs (params module)) with
    | Some e =>
        module_exit (fail_json ("unable to connect to database: " ++ e))
          (open_cursor d)
    | None =>
        (changed <- try_except (reconcile module)
                      (fun e => module_exit
                         (fail_json ("Database query failed: " ++ exn_str e))) ;;
         module_exit (exit_json changed guc)) (open_cursor d)
    end.

End Modern.
End Modern.

(** ** The early variant: src/library/postgresql_setting.py *)

(** The two warnings of the early [main]. *)
Definition early_preset_warning (option : string) : string :=
  "Option " ++ option
  ++ " is preset, so it can only be set at initdb or before building from source code. "
  ++ "For details, see https://www.postgresql.org/docs/current/static/runtime-config-preset.html".

Definition early_missing_warning (option : string) : string :=
  "Option " ++ option ++ " does not exist".

Module Early.
Section Early.

Context {db : Type}.
Variable exec : Query -> db -> Reply * db.
Variable postgresqldb_found : bool.
Variable connect : gmap string string -> option string.

Definition option_ispreset (option : string) : Py db Value :=
  execute exec (Q_option_ispreset option) ;;
  row <- fetchone ;;
  getitem row 0.

Definition option_get_default_value (option : string) : Py db Value :=
  execute exec (Q_option_get_default_value option) ;;
  row <- fetchone ;;
  getitem row 0.

Definition option_isdefault (option : string) : Py db bool :=
  execute exec (Q_option_isdefault option) ;;
  rows <- fetchone ;;
  n <- get_rowcount ;;
  if 0 <? n then
    default_value <- getitem rows 0 ;;
    current_value <- getitem rows 1 ;;
    ret (py_eq default_value current_value)
  else ret false.

Definition option_exists (option : string) : Py db bool :=
  execute exec (Q_option_exists option) ;;
  n <- get_rowcount ;;
  ret (0 <? n).

Definition option_matches (option value : string) : Py db Value :=
  execute exec (Q_option_matches option value) ;;
  row <- fetchone ;;
  getitem row 0.

(** The default is fetched while the argument of [execute] is evaluated,
    before the [ALTER SYSTEM] is sent. *)
Definition option_reset (option : string) : Py db bool :=
  d <- option_isdefault option ;;
  if negb d then
    v <- option_get_default_value option ;;
    execute exec (Q_option_reset option (py_str v)) ;;
    ret true
  else ret false.

Definition option_set (option value : string) : Py db bool :=
  m <- option_matches option value ;;
  if negb (truthy m) then
    execute exec (Q_option_set option value) ;;
    ret true
  else ret false.

Definition reconcile (module : AnsibleModule) : Py db bool :=
  let option := params module !!! "option" in
  let value := params module !!! "value" in
  let state := params module !!! "state" in
  p <- option_ispreset option ;;
  if truthy p then
    warn (early_preset_warning option) ;;
    ret false
  else
    e <- option_exists option ;;
    if e then
      (if check_mode module then
         changed <- (if String.eqb state "absent" then
                       d <- option_isdefault option ;; ret (negb d)
                     else if String.eqb state "present" then
                       m <- option_matches option value ;; ret (negb (truthy m))
                     else ret false) ;;
         module_exit (exit_json changed option)
       else ret tt) ;;
      if String.eqb state "absent" then option_reset option
      else if String.eqb state "present" then option_set option value
      else ret false
    else
      warn (early_missing_warning option) ;;
      ret false.

Definition main (module : AnsibleModule) (d : db) : Res unit * Session db :=
  let option := params module !!! "option" in
  if negb postgresqldb_found then
    module_exit (fail_json "the python psycopg2 module is required")
      (open_cursor d)
  else
    match connect (connect_kwargs (params module)) with
    | Some e =>
        module_exit (fail_json ("unable to connect to database: " ++ e))
          (open_cursor d)
    | None =>
        (changed <- try_except (reconcile module)
                      (fun e => module_exit
                         (fail_json ("Database query failed: " ++ exn_str e))) ;;
         module_exit (exit_json changed option)) (open_cursor d)
    end.

End Early.
End Early.

(** ** A model of the instance: the settings catalog

    The statements are read as the queries they are written to be (for the
    early variant this is the reading of its texts when the inputs hold no
    quote characters; module [Lexing] looks at the texts themselves).

    An instance has the view [pg_settings], one row per parameter, and the
    contents of [postgresql.auto.conf].  [ALTER SYSTEM] edits the file and
    nothing else: as the module's documentation says, "new values will be
    effective after the next server configuration reload".  [exec] is a server
    that accepts every write on a parameter that can be changed.  A server
    also rejects values, texts and users: [serve] leaves its decision on a
    write open, and the theorems about writes hold for every such
    decision.  Names are looked up as given: the filters [name = ...] on
    [pg_settings] compare exactly, and the theorems ask [current_setting]
    only for names that have a row.  What the server shows after a reload
    is not modelled. *)

Module Pg.

(** The columns of [pg_settings] that the module reads. *)
Record Setting : Type := mkSetting {
  pg_name : string;
  pg_setting : string;      (* the value in effect: current_setting(name) *)
  pg_context : string;
  pg_boot_val : string;
  pg_reset_val : string
}.

Record Instance : Type := mkInstance {
  pg_settings : list Setting;
  auto_conf : gmap string string
}.

Definition named (n : string) (r : Setting) : bool := String.eqb (pg_name r) n.
Definition internal (r : Setting) : bool := String.eqb (pg_context r) "internal".
Definition unchanged (r : Setting) : bool :=
  String.eqb (pg_boot_val r) (pg_reset_val r).

(** [EXISTS (SELECT 1 FROM pg_settings WHERE cond AND name = n)]. *)
Definition exists_row (cond : Setting -> bool) (n : string) (i : Instance)
    : bool :=
  existsb (fun r => cond r && named n r) (pg_settings i).

Definition select_exists (cond : Setting -> bool) (n : string) (i : Instance)
    : Reply :=
  Tuples [[VBool (exists_row cond n i)]].

(** [SELECT cols FROM pg_settings WHERE name = n]. *)
Definition select_where_name (cols : Setting -> Row) (n : string)
    (i : Instance) : Reply :=
  Tuples (List.map cols (List.filter (named n) (pg_settings i))).

(** [SELECT current_setting(n) = v]: an unknown parameter is an error. *)
Definition select_current_setting_eq (n v : string) (i : Instance) : Reply :=
  match List.find (named n) (pg_settings i) with
  | Some r => Tuples [[VBool (String.eqb (pg_setting r) v)]]
  | None => QueryFailed ("unrecognized configuration parameter " ++ n)
  end.

(** Some row of the name is not of the internal context. *)
Definition can_change (n : string) (i : Instance) : bool :=
  exists_row (fun r => negb (internal r)) n i.

(** Some row of the name has its boot value as persisted value. *)
Definition at_default (n : string) (i : Instance) : bool :=
  exists_row unchanged n i.

(** Some row of the name is of the internal context. *)
Definition is_preset (n : string) (i : Instance) : bool :=
  exists_row internal n i.

(** Some row has the name. *)
Definition has_row (n : string) (i : Instance) : bool :=
  existsb (named n) (pg_settings i).

(** The first row of the name, the one [fetchone] returns. *)
Definition first_row (n : string) (i : Instance) : option Setting :=
  List.find (named n) (pg_settings i).

(** The value in effect for the name is [v]. *)
Definition matches (n v : string) (i : Instance) : bool :=
  match List.find (named n) (pg_settings i) with
  | Some r => String.eqb (pg_setting r) v
  | None => false
  end.

(** [ALTER SYSTEM SET n TO v] ([Some v]) and [ALTER SYSTEM RESET n]
    ([None]): the entry of [n] in [postgresql.auto.conf] is written or
    removed. *)
Definition alter_system (n : string) (v : option string) (i : Instance)
    : Reply * Instance :=
  if can_change n i then
    (CommandOk,
     mkInstance (pg_settings i)
       match v with
       | Some x => <[n := x]> (auto_conf i)
       | None => delete n (auto_conf i)
       end)
  else (QueryFailed ("parameter " ++ n ++ " cannot be changed"), i).

Definition exec (q : Query) (i : Instance) : Reply * Instance :=
  match q with
  | Q_is_guc_configurable guc =>
      (select_exists (fun r => negb (internal r)) guc i, i)
  | Q_get_default_guc_value guc =>
      (select_where_name (fun r => [VStr (pg_boot_val r)]) guc i, i)
  | Q_is_guc_default guc => (select_exists unchanged guc i, i)
  | Q_guc_exists guc =>
      (select_where_name (fun r => [VStr (pg_name r)]) guc i, i)
  | Q_do_guc_reset guc => alter_system guc None i
  | Q_do_guc_set guc value => alter_system guc (Some value) i
  | Q_guc_matches guc value => (select_current_setting_eq guc value i, i)
  | Q_option_ispreset option => (select_exists internal option i, i)
  | Q_option_get_default_value option =>
      (select_where_name (fun r => [VStr (pg_boot_val r)]) option i, i)
  | Q_option_isdefault option =>
      (select_where_name
         (fun r => [VStr (pg_boot_val r); VStr (pg_reset_val r)]) option i, i)
  | Q_option_exists option =>
      (select_where_name (fun r => [VStr (pg_name r)]) option i, i)
  | Q_option_reset option default => alter_system option (Some default) i
  | Q_option_set option value => alter_system option (Some value) i
  | Q_option_matches option value =>
      (select_current_setting_eq option value i, i)
  end.

(** The same catalog behind a server whose handling of [ALTER SYSTEM] is
    left open: [write] is what the server does with a write (it may accept
    it, reject the value or the text, or refuse the user); the reads are
    answered as by [exec]. *)
Definition serve (write : Query -> Instance -> Reply * Instance)
    (q : Query) (i : Instance) : Reply * Instance :=
  if is_write q then write q i else exec q i.

(** *** The catalog facts the specification speaks of *)

(** [IsConfigurable]: a row for the name exists whose context is not the
    internal one. *)
Definition IsConfigurable (i : Instance) (n : string) : Prop :=
  exists r, In r (pg_settings i) /\ pg_name r = n /\ pg_context r <> "internal".

(** [IsAtDefault]: the boot value equals the persisted value. *)
Definition IsAtDefault (i : Instance) (n : string) : Prop :=
  exists r, In r (pg_settings i) /\ pg_name r = n /\ pg_boot_val r = pg_reset_val r.

(** [MatchesDesired]: the value in effect is the desired one. *)
Definition MatchesDesired (i : Instance) (n v : string) : Prop :=
  exists r, List.find (named n) (pg_settings i) = Some r /\ pg_setting r = v.

(** Not configurable: every row of the name (if there is one) is of the
    internal context. *)
Definition NonConfigurable (i : Instance) (n : string) : Prop :=
  forall r, In r (pg_settings i) -> pg_name r = n -> pg_context r = "internal".

(** No row at all for the name. *)
Definition NoRow (i : Instance) (n : string) : Prop :=
  forall r, In r (pg_settings i) -> pg_name r <> n.

End Pg.

(** ** What a computation adds to the statement log *)

(** [issues m n]: from any session, [m] only appends statements to the log,
    and at most [n] of those are writes. *)
Definition issues {db A} (m : Py db A) (n : nat) : Prop :=
  forall s, exists l,
    statements (m s).2 = (statements s ++ l)%list /\
    (length (writes l) <= n)%nat.

(** The outcome of a run of [main]. *)
Definition exits_with {db} (r : Res unit * Session db) (e : Exit) : Prop :=
  r.1 = Raise (SystemExit e).

(** ** Lexing: the shape of a statement text

    A lexer for the part of SQL the module writes: words, quoted
    identifiers, string literals (a quote is written twice inside either),
    the [%s] placeholder of a bound argument, and single symbols. *)

Module Lexing.

Inductive Token : Type :=
  | T_word (s : string)
  | T_ident (s : string)
  | T_literal (s : string)
  | T_param
  | T_symbol (c : ascii).

Inductive Mode : Type :=
  | Idle
  | InWord (acc : string)
  | InIdent (acc : string)
  | IdentQuote (acc : string)   (* a double quote seen inside an identifier *)
  | InLit (acc : string)
  | LitQuote (acc : string)     (* a single quote seen inside a literal *)
  | Percent.

Definition is_space (c : ascii) : bool :=
  let n := nat_of_ascii c in
  Nat.eqb n 32 || Nat.eqb n 10 || Nat.eqb n 9 || Nat.eqb n 13.

Definition is_word_char (c : ascii) : bool :=
  let n := nat_of_ascii c in
  (Nat.leb 48 n && Nat.leb n 57) || (Nat.leb 65 n && Nat.leb n 90)
  || (Nat.leb 97 n && Nat.leb n 122) || Nat.eqb n 95.

Definition snoc (acc : string) (c : ascii) : string :=
  acc ++ String c EmptyString.

Definition step_idle (c : ascii) : list Token * Mode :=
  if Ascii.eqb c sql.dquote then ([], InIdent "")
  else if Ascii.eqb c sql.squote then ([], InLit "")
  else if Ascii.eqb c "%" then ([], Percent)
  else if is_space c then ([], Idle)
  else if is_word_char c then ([], InWord (String c ""))
  else ([T_symbol c], Idle).

Definition emit (t : Token) (r : list Token * Mode) : list Token * Mode :=
  (t :: r.1, r.2).

Definition step (m : Mode) (c : ascii) : list Token * Mode :=
  match m with
  | Idle => step_idle c
  | InWord acc =>
      if is_word_char c then ([], InWord (snoc acc c))
      else emit (T_word acc) (step_idle c)
  | InIdent acc =>
      if Ascii.eqb c sql.dquote then ([], IdentQuote acc)
      else ([], InIdent (snoc acc c))
  | IdentQuote acc =>
      if Ascii.eqb c sql.dquote then ([], InIdent (snoc acc c))
      else emit (T_ident acc) (step_idle c)
  | InLit acc =>
      if Ascii.eqb c sql.squote then ([], LitQuote acc)
      else ([], InLit (snoc acc c))
  | LitQuote acc =>
      if Ascii.eqb c sql.squote then ([], InLit (snoc acc c))
      else emit (T_literal acc) (step_idle c)
  | Percent =>
      if Ascii.eqb c "s" then ([T_param], Idle)
      else emit (T_symbol "%") (step_idle c)
  end.

(** At the end of the text; an identifier or literal left open is an
    error. *)
Definition finish (m : Mode) : option (list Token) :=
  match m with
  | Idle => Some []
  | InWord acc => Some [T_word acc]
  | IdentQuote acc => Some [T_ident acc]
  | LitQuote acc => Some [T_literal acc]
  | Percent => Some [T_symbol "%"]
  | InIdent _ | InLit _ => None
  end.

(** The lexer run over a text: the tokens completed and the mode left. *)
Fixpoint run (m : Mode) (s : string) : list Token * Mode :=
  match s with
  | EmptyString => ([], m)
  | String c rest =>
      let (out, m') := step m c in
      let (out', m'') := run m' rest in
      ((out ++ out')%list, m'')
  end.

Definition lex (s : string) : option (list Token) :=
  let (out, m) := run Idle s in
  option_map (app out) (finish m).

(** The shape of a token list: the tokens with the contents of quoted
    identifiers and literals blanked. *)
Definition blank (t : Token) : Token :=
  match t with
  | T_ident _ => T_ident ""
  | T_literal _ => T_literal ""
  | t => t
  end.

(** The structure of the statement a server reads from a query's text. *)
Definition structure (q : Query) : option (list Token) :=
  option_map (List.map blank) (lex (sql_text q)).

(** Two queries built by the same [execute] call of the source. *)
Definition same_site (q1 q2 : Query) : bool :=
  match q1, q2 with
  | Q_is_guc_configurable _, Q_is_guc_configurable _
  | Q_get_default_guc_value _, Q_get_default_guc_value _
  | Q_is_guc_default _, Q_is_guc_default _
  | Q_guc_exists _, Q_guc_exists _
  | Q_do_guc_reset _, Q_do_guc_reset _
  | Q_do_guc_set _ _, Q_do_guc_set _ _
  | Q_guc_matches _ _, Q_guc_matches _ _
  | Q_option_ispreset _, Q_option_ispreset _
  | Q_option_get_default_value _, Q_option_get_default_value _
  | Q_option_isdefault _, Q_option_isdefault _
  | Q_option_exists _, Q_option_exists _
  | Q_option_reset _ _, Q_option_reset _ _
  | Q_option_set _ _, Q_option_set _ _
  | Q_option_matches _ _, Q_option_matches _ _ => true
  | _, _ => false
  end.

(** Inputs that raw formatting leaves intact: a text without a single
    quote inside a literal, and a bare word where a name is expected. *)
Fixpoint no_squote (s : string) : bool :=
  match s with
  | EmptyString => true
  | String c rest => negb (Ascii.eqb c sql.squote) && no_squote rest
  end.



(** The statements of src/postgresql_setting.py. *)
Definition is_modern (q : Query) : bool :=
  match q with
  | Q_is_guc_configurable _ | Q_get_default_guc_value _ | Q_is_guc_default _
  | Q_guc_exists _ | Q_do_guc_reset _ | Q_do_guc_set _ _
  | Q_guc_matches _ _ => true
  | _ => false
  end.

End Lexing.

(** ** Sessions reached by running statements *)

(** The session after [execute q] answered with the result set [rows]
    (or with none), the server being left in state [d]. *)
Definition ran {db} (s : Session db) (d : db) (q : Query)
    (rows : option (list Row)) (n : Z) : Session db :=
  mkSession d rows n (statements s ++ [q])%list (warnings s).

(** A module object with the check-mode flag replaced. *)
Definition with_check_mode (b : bool) (module : AnsibleModule) : AnsibleModule :=
  mkModule (params module) b.

(** ** Outcomes *)

(** [m], run from [s], returns [a] after issuing exactly the writes [ws]. *)
Definition returns {db A} (m : Py db A) (s : Session db) (a : A)
    (ws : list Query) : Prop :=
  exists s' l, m s = (Ok a, s') /\
               statements s' = (statements s ++ l)%list /\ writes l = ws.

(** [m], run from [s], raises [e] after issuing exactly the writes [ws]. *)
Definition raises {db A} (m : Py db A) (s : Session db) (e : Exn)
    (ws : list Query) : Prop :=
  exists s' l, m s = (Raise e, s') /\
               statements s' = (statements s ++ l)%list /\ writes l = ws.

(** ** A run of the modern [main] on the catalog model, in one place

    What the checks of the modern variant amount to on an instance: the
    [changed] value, the write sent, the warning, and the instance left
    behind.  Lemma [modern_main_pg] shows that [Modern.main] computes
    exactly these. *)

Definition modern_decision (state guc value : string) (i : Pg.Instance) : bool :=
  if String.eqb state "absent" then negb (Pg.at_default guc i)
  else if String.eqb state "present" then negb (Pg.matches guc value i)
  else false.

Definition modern_write (state guc value : string) : Query :=
  if String.eqb state "absent" then Q_do_guc_reset guc
  else Q_do_guc_set guc value.

Definition modern_changed (module : AnsibleModule) (i : Pg.Instance) : bool :=
  Pg.can_change (params module !!! "guc") i &&
  modern_decision (params module !!! "state") (params module !!! "guc")
    (params module !!! "value") i.

Definition modern_writes (module : AnsibleModule) (i : Pg.Instance)
    : list Query :=
  if negb (check_mode module) && modern_changed module i
  then [modern_write (params module !!! "state") (params module !!! "guc")
          (params module !!! "value")]
  else [].

Definition modern_after (module : AnsibleModule) (i : Pg.Instance)
    : Pg.Instance :=
  fold_left (fun d q => (Pg.exec q d).2) (modern_writes module i) i.

Definition modern_warnings (module : AnsibleModule) (i : Pg.Instance)
    : list string :=
  if Pg.can_change (params module !!! "guc") i then []
  else [modern_warning (params module !!! "guc")].

(** ** A run of the early [main] on the catalog model, in one place

    The same for the early variant; lemma [early_main_pg] shows that
    [Early.main] computes exactly these. *)

Definition early_guard (option : string) (i : Pg.Instance) : bool :=
  negb (Pg.is_preset option i) && Pg.has_row option i.

Definition early_isdefault (option : string) (i : Pg.Instance) : bool :=
  match Pg.first_row option i with
  | Some r => Pg.unchanged r
  | None => false
  end.

Definition early_decision (state option value : string) (i : Pg.Instance)
    : bool :=
  if String.eqb state "absent" then negb (early_isdefault option i)
  else if String.eqb state "present" then negb (Pg.matches option value i)
  else false.

Definition early_write (state option value : string) (i : Pg.Instance)
    : Query :=
  if String.eqb state "absent" then
    Q_option_reset option
      match Pg.first_row option i with
      | Some r => Pg.pg_boot_val r
      | None => ""
      end
  else Q_option_set option value.

Definition early_changed (module : AnsibleModule) (i : Pg.Instance) : bool :=
  early_guard (params module !!! "option") i &&
  early_decision (params module !!! "state") (params module !!! "option")
    (params module !!! "value") i.

Definition early_writes (module : AnsibleModule) (i : Pg.Instance)
    : list Query :=
  if negb (check_mode module) && early_changed module i
  then [early_write (params module !!! "state") (params module !!! "option")
          (params module !!! "value") i]
  else [].

Definition early_after (module : AnsibleModule) (i : Pg.Instance)
    : Pg.Instance :=
  fold_left (fun d q => (Pg.exec q d).2) (early_writes module i) i.

Definition early_warnings (module : AnsibleModule) (i : Pg.Instance)
    : list string :=
  if Pg.is_preset (params module !!! "option") i
  then [early_preset_warning (params module !!! "option")]
  else if Pg.has_row (params module !!! "option") i then []
  else [early_missing_warning (params module !!! "option")].

(** ** A small instance and module objects to run the model on *)

Definition demo_instance : Pg.Instance :=
  Pg.mkInstance
    [Pg.mkSetting "work_mem" "4MB" "user" "4MB" "4MB";
     Pg.mkSetting "block_size" "8192" "internal" "8192" "8192";
     Pg.mkSetting "listen_addresses" "*" "postmaster" "localhost" "*"]
    (list_to_map [("listen_addresses", "*")]).

(** [module.params] with the defaults of [argument_spec] for the connection
    options; the name is stored under both spellings of the two variants. *)
Definition demo_module (name value state : string) (check : bool)
    : AnsibleModule :=
  mkModule
    (list_to_map
       [("guc", name); ("option", name); ("value", value); ("state", state);
        ("login_user", "postgres"); ("login_password", ""); ("login_host", "");
        ("login_unix_socket", ""); ("port", "5432")])
    check.

(** A connection that is always established. *)
Definition demo_connect (kw : gmap string string) : option string := None.

(** [work_mem: 8MB, present], [block_size: 16384, present],
    [listen_addresses: absent] and an unknown name, without check mode. *)
Definition demo_set_work_mem : AnsibleModule :=
  demo_module "work_mem" "8MB" "present" false.
Definition demo_set_block_size : AnsibleModule :=
  demo_module "block_size" "16384" "present" false.
Definition demo_reset_listen : AnsibleModule :=
  demo_module "listen_addresses" "" "absent" false.
Definition demo_reset_unknown : AnsibleModule :=
  demo_module "no_such_parameter" "" "absent" false.

(** [module.params] of a run that names a socket next to [localhost]. *)
Definition demo_socket_params : gmap string string :=
  list_to_map [("login_host", "localhost");
               ("login_unix_socket", "/var/run/postgresql");
               ("login_user", "postgres"); ("login_password", "");
               ("port", "5432"); ("guc", "work_mem"); ("value", "8MB");
               ("state", "present")].

(** A value that closes the literal it is formatted into. *)
Definition demo_injection : string := "off'; ALTER SYSTEM SET fsync TO 'off".

(** ** The ways a run of [main] ends

    [name] is the parameter name of the run and [connected] the outcome of
    [connect] ([None] when the connection was made). *)
Definition ends_as {db} (found : bool) (connected : option string)
    (name : string) (r : Res unit * Session db) : Prop :=
  (exists c, exits_with r (exit_json c name)) \/
  (found = false /\
   exits_with r (fail_json "the python psycopg2 module is required") /\
   statements r.2 = []) \/
  (exists e, connected = Some e /\
   exits_with r (fail_json ("unable to connect to database: " ++ e)) /\
   statements r.2 = []) \/
  (exists m, exits_with r (fail_json ("Database query failed: " ++ m)) /\
   statements r.2 <> []).

(** The run ended in [fail_json] for a failed query. *)
Definition query_failed {db} (r : Res unit * Session db) : Prop :=
  exists m, exits_with r (fail_json ("Database query failed: " ++ m)).

(** The run reported [changed = c], and not [True] unless [may] holds. *)
Definition reported {db} (r : Res unit * Session db) (name : string)
    (may : Prop) : Prop :=
  exists c, exits_with r (exit_json c name) /\ (c = true -> may).

(** The last statement [w] of the run was sent in the server state [d]: the
    run reports [changed = True] if the server took it and fails if it
    raised. *)
Definition wrote {db} (exec : Query -> db -> Reply * db)
    (r : Res unit * Session db) (name : string) (w : Query) : Prop :=
  exists d,
    (exits_with r (exit_json true name) /\
     forall m, (exec w d).1 <> QueryFailed m) \/
    (exists m, (exec w d).1 = QueryFailed m /\
     exits_with r (fail_json ("Database query failed: " ++ m))).

(** The traces of a connected run of the modern [main]: the statements
    executed, the warnings, and how the run ended. *)
Definition modern_trace {db} (exec : Query -> db -> Reply * db)
    (module : AnsibleModule) (r : Res unit * Session db) : Prop :=
  let guc := params module !!! "guc" in
  let value := params module !!! "value" in
  let state := params module !!! "state" in
  let log := statements r.2 in
  let configurable := Q_is_guc_configurable guc in
  (log = [configurable] /\ warnings r.2 = [] /\ query_failed r) \/
  (log = [configurable] /\ warnings r.2 = [modern_warning guc] /\
   exits_with r (exit_json false guc)) \/
  (log = [configurable] /\ warnings r.2 = [] /\
   state <> "absent" /\ state <> "present" /\
   exits_with r (exit_json false guc)) \/
  (exists check write,
     (state = "absent" /\ check = Q_is_guc_default guc /\
      write = Q_do_guc_reset guc \/
      state <> "absent" /\ state = "present" /\
      check = Q_guc_matches guc value /\ write = Q_do_guc_set guc value) /\
     warnings r.2 = [] /\
     (log = [configurable; check] /\
      (query_failed r \/ reported r guc (check_mode module = true)) \/
      log = [configurable; check; write] /\ check_mode module = false /\
      wrote exec r guc write)).

(** The traces of a connected run of the early [main]. *)
Definition early_trace {db} (exec : Query -> db -> Reply * db)
    (module : AnsibleModule) (r : Res unit * Session db) : Prop :=
  let option := params module !!! "option" in
  let value := params module !!! "value" in
  let state := params module !!! "state" in
  let log := statements r.2 in
  let preset := Q_option_ispreset option in
  let exists_ := Q_option_exists option in
  (log = [preset] /\ warnings r.2 = [] /\ query_failed r) \/
  (log = [preset] /\ warnings r.2 = [early_preset_warning option] /\
   exits_with r (exit_json false option)) \/
  (log = [preset; exists_] /\ warnings r.2 = [] /\ query_failed r) \/
  (log = [preset; exists_] /\ warnings r.2 = [early_missing_warning option] /\
   exits_with r (exit_json false option)) \/
  (log = [preset; exists_] /\ warnings r.2 = [] /\
   state <> "absent" /\ state <> "present" /\
   exits_with r (exit_json false option)) \/
  (warnings r.2 = [] /\
   (state = "absent" /\
    (log = [preset; exists_; Q_option_isdefault option] /\
     (query_failed r \/ reported r option (check_mode module = true)) \/
     log = [preset; exists_; Q_option_isdefault option;
            Q_option_get_default_value option] /\
     check_mode module = false /\ query_failed r \/
     exists default,
       log = [preset; exists_; Q_option_isdefault option;
              Q_option_get_default_value option;
              Q_option_reset option default] /\
       check_mode module = false /\
       wrote exec r option (Q_option_reset option default)) \/
    state <> "absent" /\ state = "present" /\
    (log = [preset; exists_; Q_option_matches option value] /\
     (query_failed r \/ reported r option (check_mode module = true)) \/
     log = [preset; exists_; Q_option_matches option value;
            Q_option_set option value] /\
     check_mode module = false /\
     wrote exec r option (Q_option_set option value)))).

(** A server that answers the reads as the catalog model does and rejects
    every write. *)
Definition demo_read_only (q : Query) (i : Pg.Instance) : Reply * Pg.Instance :=
  if is_write q
  then (QueryFailed "cannot execute ALTER SYSTEM in a read-only transaction", i)
  else Pg.exec q i.

(** A server that raises on every statement. *)
Definition demo_unavailable (q : Query) (i : Pg.Instance)
    : Reply * Pg.Instance :=
  (QueryFailed "server closed the connection unexpectedly", i).

(** ** A run on the catalog model when the server decides on the write

    The same summaries for a server [Pg.serve write]: the statements of
    the run, and how it ends when the server accepts or rejects the
    [ALTER SYSTEM].  Lemmas [modern_main_served] and [early_main_served]
    show that the two [main]s compute exactly these. *)

(** What [execute(w); return True] gives for the server's reply to [w]. *)
Definition write_result (r : Reply) : Res bool :=
  match r with
  | QueryFailed msg => Raise (DatabaseError msg)
  | _ => Ok true
  end.

(** How [main] ends after sending the write [w] in the server state [i]. *)
Definition exit_after_write (write : Query -> Pg.Instance -> Reply * Pg.Instance)
    (w : Query) (i : Pg.Instance) (name : string) : Exit :=
  match (write w i).1 with
  | QueryFailed msg => fail_json ("Database query failed: " ++ msg)
  | _ => exit_json true name
  end.

(** The check of the state asked for. *)
Definition modern_check (state guc value : string) : list Query :=
  if String.eqb state "absent" then [Q_is_guc_default guc]
  else if String.eqb state "present" then [Q_guc_matches guc value]
  else [].

Definition modern_log (module : AnsibleModule) (i : Pg.Instance)
    : list Query :=
  Q_is_guc_configurable (params module !!! "guc") ::
  (if Pg.can_change (params module !!! "guc") i
   then (modern_check (params module !!! "state") (params module !!! "guc")
           (params module !!! "value") ++ modern_writes module i)%list
   else []).

Definition modern_served_exit
    (write : Query -> Pg.Instance -> Reply * Pg.Instance)
    (module : AnsibleModule) (i : Pg.Instance) : Exit :=
  match modern_writes module i with
  | [] => exit_json (modern_changed module i) (params module !!! "guc")
  | w :: _ => exit_after_write write w i (params module !!! "guc")
  end.

Definition modern_served_after
    (write : Query -> Pg.Instance -> Reply * Pg.Instance)
    (module : AnsibleModule) (i : Pg.Instance) : Pg.Instance :=
  fold_left (fun d q => (write q d).2) (modern_writes module i) i.

Definition early_check (state option value : string) : list Query :=
  if String.eqb state "absent" then [Q_option_isdefault option]
  else if String.eqb state "present" then [Q_option_matches option value]
  else [].

(** [option_reset] asks for the boot value before it writes. *)
Definition early_fetch (state option : string) : list Query :=
  if String.eqb state "absent" then [Q_option_get_default_value option]
  else [].

Definition early_log (module : AnsibleModule) (i : Pg.Instance)
    : list Query :=
  let option := params module !!! "option" in
  let state := params module !!! "state" in
  Q_option_ispreset option ::
  (if Pg.is_preset option i then []
   else
     Q_option_exists option ::
     (if Pg.has_row option i
      then (early_check state option (params module !!! "value") ++
            match early_writes module i with
            | [] => []
            | ws => early_fetch state option ++ ws
            end)%list
      else [])).

Definition early_served_exit
    (write : Query -> Pg.Instance -> Reply * Pg.Instance)
    (module : AnsibleModule) (i : Pg.Instance) : Exit :=
  match early_writes module i with
  | [] => exit_json (early_changed module i) (params module !!! "option")
  | w :: _ => exit_after_write write w i (params module !!! "option")
  end.

Definition early_served_after
    (write : Query -> Pg.Instance -> Reply * Pg.Instance)
    (module : AnsibleModule) (i : Pg.Instance) : Pg.Instance :=
  fold_left (fun d q => (write q d).2) (early_writes module i) i.

(** ** Servers and the text they are sent *)

(** A server reads the text of a statement: one whose text leaves a
    quoted string or a quoted identifier open is a syntax error to it. *)
Definition rejects_open_quotes {db} (exec : Query -> db -> Reply * db)
    : Prop :=
  forall q d, Lexing.lex (sql_text q) = None ->
              exists msg, (exec q d).1 = QueryFailed msg.

(** A name that holds a single quote. *)
Definition demo_quoted_name : string := "work'mem".

(** ** A server that rejects a value

    [work_mem] is a memory size and the empty string is none: the server
    answers [ALTER SYSTEM SET work_mem TO ''] with the error invalid value
    for parameter work_mem.  Every other statement is answered as by
    [Pg.exec]. *)
Definition demo_validate (q : Query) (i : Pg.Instance)
    : Reply * Pg.Instance :=
  match q with
  | Q_do_guc_set guc value | Q_option_set guc value =>
      if String.eqb guc "work_mem" && String.eqb value ""
      then (QueryFailed "invalid value for parameter work_mem", i)
      else Pg.exec q i
  | _ => Pg.exec q i
  end.

Definition demo_validating : Query -> Pg.Instance -> Reply * Pg.Instance :=
  Pg.serve demo_validate.

(** [work_mem: present] with the default of [value], the empty string. *)
Definition demo_set_empty : AnsibleModule :=
  demo_module "work_mem" "" "present" false.

(** * Properties *)

(** ** Bounding the writes of a computation by its shape *)

Section Traces.

Context {db : Type}.
Variable exec : Query -> db -> Reply * db.

Lemma issues_le {A} (m : Py db A) n k :
  issues m n -> (n <= k)%nat -> issues m k.
Proof.
  intros H Hle s. destruct (H s) as (l & E & L).
  exists l. split; [exact E | lia].
Qed.

Lemma issues_ret {A} (a : A) : issues (ret (db:=db) a) 0.
Proof. intros s. exists []. simpl. rewrite app_nil_r. auto. Qed.

Lemma issues_raise {A} e : issues (raise (db:=db) (A:=A) e) 0.
Proof. intros s. exists []. simpl. rewrite app_nil_r. auto. Qed.

Lemma issues_module_exit {A} e : issues (module_exit (db:=db) (A:=A) e) 0.
Proof. apply issues_raise. Qed.

Lemma issues_bind {A B} (m : Py db A) (k : A -> Py db B) n1 n2 :
  issues m n1 -> (forall a, issues (k a) n2) -> issues (bind m k) (n1 + n2).
Proof.
  intros Hm Hk s. unfold bind.
  destruct (Hm s) as (l1 & E1 & L1).
  destruct (m s) as [[a|e] s1] eqn:Em; simpl in E1.
  - destruct (Hk a s1) as (l2 & E2 & L2).
    exists (l1 ++ l2)%list. rewrite E2, E1, <- app_assoc. split; [reflexivity|].
    unfold writes in *. rewrite List.filter_app, length_app. lia.
  - exists l1. simpl. split; [exact E1 | lia].
Qed.

Lemma issues_try_except {A} (m : Py db A) h n k :
  issues m n -> (forall e, issues (h e) k) -> issues (try_except m h) (n + k).
Proof.
  intros Hm Hh s. unfold try_except.
  destruct (Hm s) as (l1 & E1 & L1).
  destruct (m s) as [[a|e] s1] eqn:Em; simpl in E1.
  - exists l1. simpl. split; [exact E1 | lia].
  - assert (Hgen : exists l, statements (h e s1).2 = (statements s ++ l)%list
                             /\ (length (writes l) <= n + k)%nat).
    { destruct (Hh e s1) as (l2 & E2 & L2).
      exists (l1 ++ l2)%list. rewrite E2, E1, <- app_assoc. split; [reflexivity|].
      unfold writes in *. rewrite List.filter_app, length_app. lia. }
    destruct e; try exact Hgen.
    exists l1. simpl. split; [exact E1 | lia].
Qed.

Lemma issues_if {A} (b : bool) (m1 m2 : Py db A) n1 n2 :
  issues m1 n1 -> issues m2 n2 ->
  issues (if b then m1 else m2) (Nat.max n1 n2).
Proof.
  intros H1 H2. destruct b; [apply (issues_le _ _ _ H1) | apply (issues_le _ _ _ H2)]; lia.
Qed.

Lemma issues_execute q :
  issues (execute exec q) (if is_write q then 1 else 0).
Proof.
  intros s. exists [q]. unfold execute.
  destruct (exec q (conn s)) as [r d]. split.
  - destruct r; reflexivity.
  - unfold writes. simpl. destruct (is_write q); simpl; lia.
Qed.

Lemma issues_execute_any q : issues (execute exec q) 1.
Proof.
  apply (issues_le _ _ _ (issues_execute q)). destruct (is_write q); lia.
Qed.

Lemma issues_fetchone : issues (fetchone (db:=db)) 0.
Proof.
  intros s. exists []. unfold fetchone. rewrite app_nil_r.
  destruct (pending s) as [[|r rest]|]; simpl; auto.
Qed.

Lemma issues_get_rowcount : issues (get_rowcount (db:=db)) 0.
Proof. intros s. exists []. simpl. rewrite app_nil_r. auto. Qed.

Lemma issues_getitem row i : issues (getitem (db:=db) row i) 0.
Proof.
  unfold getitem. destruct row as [r|]; [|apply issues_raise].
  destruct (nth_error r i); [apply issues_ret | apply issues_raise].
Qed.

Lemma issues_warn msg : issues (warn (db:=db) msg) 0.
Proof. intros s. exists []. simpl. rewrite app_nil_r. auto. Qed.

End Traces.

(** One step of bounding the writes of a computation by its shape. *)
Ltac issues_step :=
  first
    [ eapply issues_bind; [ | intros ? ]
    | eapply issues_try_except; [ | intros ? ]
    | eapply issues_if
    | apply issues_execute
    | apply issues_execute_any
    | apply issues_fetchone
    | apply issues_get_rowcount
    | apply issues_getitem
    | apply issues_warn
    | apply issues_ret
    | apply issues_module_exit
    | apply issues_raise ].

Ltac issues_bound :=
  eapply issues_le; [ repeat issues_step | simpl; lia ].

Section SingleWrite.

Context {db : Type}.
Variable exec : Query -> db -> Reply * db.

Lemma modern_reconcile_issues module :
  issues (Modern.reconcile exec module) 1.
Proof.
  unfold Modern.reconcile, Modern.is_guc_configurable, Modern.is_guc_default,
    Modern.guc_matches, Modern.do_guc_reset, Modern.do_guc_set,
    Modern.is_guc_default, Modern.guc_matches.
  issues_bound.
Qed.

Lemma early_reconcile_issues module :
  issues (Early.reconcile exec module) 1.
Proof.
  unfold Early.reconcile, Early.option_ispreset, Early.option_exists,
    Early.option_isdefault, Early.option_matches, Early.option_reset,
    Early.option_set, Early.option_isdefault, Early.option_matches,
    Early.option_get_default_value.
  issues_bound.
Qed.

End SingleWrite.

(** C5. Single-write invariant: whatever the inputs, the check-mode flag and
    the answers of the server, a run of [main] executes at most one
    [ALTER SYSTEM] statement, in both variants. *)
Theorem single_write_invariant :
  forall (db : Type) (exec : Query -> db -> Reply * db) (found : bool)
         (connect : gmap string string -> option string)
         (module : AnsibleModule) (d : db),
    (length (writes (statements (Modern.main exec found connect module d).2)) <= 1)%nat
    /\ (length (writes (statements (Early.main exec found connect module d).2)) <= 1)%nat.
Proof.
  intros db exec found connect module d.
  assert (Hm : issues (changed <- try_except (Modern.reconcile exec module)
                         (fun e => module_exit
                            (fail_json ("Database query failed: " ++ exn_str e))) ;;
                       module_exit (A:=unit)
                         (exit_json changed (params module !!! "guc"))) 1).
  { eapply issues_le.
    - eapply issues_bind; [ eapply issues_try_except;
        [ apply modern_reconcile_issues | intros e; apply issues_module_exit ]
      | intros c; apply issues_module_exit ].
    - simpl; lia. }
  assert (He : issues (changed <- try_except (Early.reconcile exec module)
                         (fun e => module_exit
                            (fail_json ("Database query failed: " ++ exn_str e))) ;;
                       module_exit (A:=unit)
                         (exit_json changed (params module !!! "option"))) 1).
  { eapply issues_le.
    - eapply issues_bind; [ eapply issues_try_except;
        [ apply early_reconcile_issues | intros e; apply issues_module_exit ]
      | intros c; apply issues_module_exit ].
    - simpl; lia. }
  unfold Modern.main, Early.main.
  destruct found; simpl negb; cbv iota.
  - destruct (connect (connect_kwargs (params module))) as [e|].
    + split; simpl; lia.
    + split.
      * destruct (Hm (open_cursor d)) as (l & E & L). rewrite E. exact L.
      * destruct (He (open_cursor d)) as (l & E & L). rewrite E. exact L.
  - split; simpl; lia.
Qed.

(** ** Running the helpers against the catalog model *)

Lemma bind_ok {db A B} (m : Py db A) (k : A -> Py db B) s a s' :
  m s = (Ok a, s') -> bind m k s = k a s'.
Proof. intros E. unfold bind. rewrite E. reflexivity. Qed.

Lemma bind_raise {db A B} (m : Py db A) (k : A -> Py db B) s e s' :
  m s = (Raise e, s') -> bind m k s = (Raise e, s').
Proof. intros E. unfold bind. rewrite E. reflexivity. Qed.

Section PgRuns.

Import Pg.

Implicit Types (s : Session Instance) (i : Instance).

(** *** Catalog facts as the booleans the server computes *)

Lemma can_change_spec i n : can_change n i = true <-> IsConfigurable i n.
Proof.
  unfold can_change, exists_row, IsConfigurable. rewrite existsb_exists.
  split; intros (r & Hin & H); exists r; (split; [exact Hin|]).
  - apply andb_prop in H as [Hc Hn]. unfold named in Hn. unfold internal in Hc.
    apply String.eqb_eq in Hn. apply negb_true_iff, String.eqb_neq in Hc. auto.
  - destruct H as [Hn Hc]. apply andb_true_intro. unfold named, internal. split.
    + apply negb_true_iff, String.eqb_neq. exact Hc.
    + apply String.eqb_eq. exact Hn.
Qed.

Lemma at_default_spec i n : at_default n i = true <-> IsAtDefault i n.
Proof.
  unfold at_default, exists_row, IsAtDefault. rewrite existsb_exists.
  split; intros (r & Hin & H); exists r; (split; [exact Hin|]).
  - apply andb_prop in H as [Hc Hn]. unfold named in Hn. unfold unchanged in Hc.
    apply String.eqb_eq in Hn, Hc. auto.
  - destruct H as [Hn Hc]. apply andb_true_intro. unfold named, unchanged.
    split; apply String.eqb_eq; assumption.
Qed.

Lemma find_named_none i n :
  List.find (named n) (pg_settings i) = None <-> NoRow i n.
Proof.
  unfold NoRow. split.
  - intros H r Hin Hn.
    pose proof (find_none _ _ H r Hin) as Hf. unfold named in Hf.
    apply String.eqb_neq in Hf. contradiction.
  - intros H. destruct (List.find (named n) (pg_settings i)) as [r|] eqn:E; [|reflexivity].
    apply find_some in E as [Hin Hn]. unfold named in Hn.
    apply String.eqb_eq in Hn. destruct (H r Hin Hn).
Qed.

Lemma filter_named_nil i n :
  NoRow i n -> List.filter (named n) (pg_settings i) = [].
Proof.
  unfold NoRow. induction (pg_settings i) as [|r l IH]; intros H; [reflexivity|].
  simpl. destruct (named n r) eqn:E.
  - unfold named in E. apply String.eqb_eq in E.
    destruct (H r (or_introl eq_refl) E).
  - apply IH. intros r' Hin. apply H. right. exact Hin.
Qed.

Lemma can_change_find i n :
  can_change n i = true -> exists r, List.find (named n) (pg_settings i) = Some r.
Proof.
  intros H. destruct (List.find (named n) (pg_settings i)) as [r|] eqn:E; [eauto|].
  apply find_named_none in E. apply can_change_spec in H as (r & Hin & Hn & _).
  destruct (E r Hin Hn).
Qed.

(** *** The modern helpers *)

Lemma run_is_guc_configurable guc s :
  Modern.is_guc_configurable exec guc s =
  (Ok (VBool (can_change guc (conn s))),
   ran s (conn s) (Q_is_guc_configurable guc) (Some []) 1).
Proof. reflexivity. Qed.

Lemma run_is_guc_default guc s :
  Modern.is_guc_default exec guc s =
  (Ok (VBool (at_default guc (conn s))),
   ran s (conn s) (Q_is_guc_default guc) (Some []) 1).
Proof. reflexivity. Qed.

Lemma run_guc_matches guc value s r :
  List.find (named guc) (pg_settings (conn s)) = Some r ->
  Modern.guc_matches exec guc value s =
  (Ok (VBool (String.eqb (pg_setting r) value)),
   ran s (conn s) (Q_guc_matches guc value) (Some []) 1).
Proof.
  intros E. unfold Modern.guc_matches, bind, execute. simpl.
  unfold select_current_setting_eq. rewrite E. reflexivity.
Qed.

Lemma run_execute_alter q n v s :
  exec q = alter_system n v ->
  can_change n (conn s) = true ->
  execute exec q s =
  (Ok tt, ran s (alter_system n v (conn s)).2 q None (-1)).
Proof.
  intros Eq Hc. unfold execute. rewrite Eq. unfold alter_system. rewrite Hc.
  reflexivity.
Qed.

End PgRuns.

Section PgMain.

Import Pg.
Implicit Types (s : Session Instance) (i : Instance).

Lemma matches_find i n v r :
  List.find (named n) (pg_settings i) = Some r ->
  matches n v i = String.eqb (pg_setting r) v.
Proof. intros E. unfold matches. rewrite E. reflexivity. Qed.

Lemma run_guc_matches' guc value s :
  can_change guc (conn s) = true ->
  Modern.guc_matches exec guc value s =
  (Ok (VBool (matches guc value (conn s))),
   ran s (conn s) (Q_guc_matches guc value) (Some []) 1).
Proof.
  intros Hc. destruct (can_change_find _ _ Hc) as [r Hr].
  rewrite (matches_find _ _ _ _ Hr). apply run_guc_matches. exact Hr.
Qed.

Lemma run_do_guc_reset guc s :
  can_change guc (conn s) = true ->
  Modern.do_guc_reset exec guc s =
  if at_default guc (conn s) then
    (Ok false, ran s (conn s) (Q_is_guc_default guc) (Some []) 1)
  else
    (Ok true,
     ran (ran s (conn s) (Q_is_guc_default guc) (Some []) 1)
         (alter_system guc None (conn s)).2 (Q_do_guc_reset guc) None (-1)).
Proof.
  intros Hc. unfold Modern.do_guc_reset.
  erewrite bind_ok by apply run_is_guc_default.
  cbn [truthy]. destruct (at_default guc (conn s)); cbn [negb]; cbv iota.
  - reflexivity.
  - erewrite bind_ok by (apply (run_execute_alter _ guc None); [reflexivity | exact Hc]).
    reflexivity.
Qed.

Lemma run_do_guc_set guc value s :
  can_change guc (conn s) = true ->
  Modern.do_guc_set exec guc value s =
  if matches guc value (conn s) then
    (Ok false, ran s (conn s) (Q_guc_matches guc value) (Some []) 1)
  else
    (Ok true,
     ran (ran s (conn s) (Q_guc_matches guc value) (Some []) 1)
         (alter_system guc (Some value) (conn s)).2 (Q_do_guc_set guc value)
         None (-1)).
Proof.
  intros Hc. unfold Modern.do_guc_set.
  erewrite bind_ok by (apply run_guc_matches'; exact Hc).
  cbn [truthy]. destruct (matches guc value (conn s)); cbn [negb]; cbv iota.
  - reflexivity.
  - erewrite bind_ok by (apply (run_execute_alter _ guc (Some value)); [reflexivity | exact Hc]).
    reflexivity.
Qed.

(** The body of the modern [main] on a parameter that cannot be changed. *)
Lemma modern_reconcile_guarded module s :
  can_change (params module !!! "guc") (conn s) = false ->
  exists s',
    Modern.reconcile exec module s = (Ok false, s') /\
    statements s' =
      (statements s ++ [Q_is_guc_configurable (params module !!! "guc")])%list /\
    warnings s' =
      (warnings s ++ [modern_warning (params module !!! "guc")])%list /\
    conn s' = conn s.
Proof.
  intros Hc. unfold Modern.reconcile.
  erewrite bind_ok by apply run_is_guc_configurable.
  rewrite Hc. cbn [truthy]. cbv iota.
  eexists. split; [reflexivity|]. cbn. auto.
Qed.

(** The body of the modern [main] on a parameter that can be changed. *)
Lemma modern_reconcile_configurable module s :
  let guc := params module !!! "guc" in
  let value := params module !!! "value" in
  let state := params module !!! "state" in
  let c := modern_decision state guc value (conn s) in
  let quiet := check_mode module || negb c in
  can_change guc (conn s) = true ->
  exists s' l,
    Modern.reconcile exec module s =
      ((if check_mode module then Raise (SystemExit (exit_json c guc)) else Ok c),
       s') /\
    statements s' = (statements s ++ l)%list /\
    writes l = (if quiet then [] else [modern_write state guc value]) /\
    warnings s' = warnings s /\
    conn s' = (if quiet then conn s
               else (exec (modern_write state guc value) (conn s)).2).
Proof.
  intros guc value state c quiet Hc. subst c quiet.
  unfold Modern.reconcile. fold guc value state.
  erewrite bind_ok by apply run_is_guc_configurable.
  rewrite Hc. cbn [truthy]. cbv iota.
  unfold modern_decision, modern_write.
  destruct (check_mode module); cbn [orb].
  - destruct (String.eqb state "absent").
    + eexists. eexists. split; [reflexivity|]. cbn. rewrite <- app_assoc. eauto.
    + destruct (String.eqb state "present").
      * unfold bind at 1. unfold bind at 1.
        erewrite bind_ok by (apply run_guc_matches'; exact Hc).
        eexists. eexists. split; [reflexivity|]. cbn. rewrite <- app_assoc. eauto.
      * eexists. eexists. split; [reflexivity|]. cbn. eauto.
  - erewrite bind_ok by reflexivity.
    destruct (String.eqb state "absent").
    + rewrite run_do_guc_reset by exact Hc. cbn [ran conn].
      destruct (at_default guc (conn s)); cbn [negb];
        (eexists; eexists; split; [reflexivity|]); cbn; rewrite <- !app_assoc; eauto.
    + destruct (String.eqb state "present").
      * rewrite run_do_guc_set by exact Hc. cbn [ran conn].
        destruct (matches guc value (conn s)); cbn [negb];
          (eexists; eexists; split; [reflexivity|]); cbn; rewrite <- !app_assoc; eauto.
      * eexists. eexists. split; [reflexivity|]. cbn. eauto.
Qed.

Variable connect : gmap string string -> option string.

(** [Modern.main] on the catalog model. *)
Lemma modern_main_pg module i :
  connect (connect_kwargs (params module)) = None ->
  let r := Modern.main exec true connect module i in
  exits_with r (exit_json (modern_changed module i) (params module !!! "guc")) /\
  writes (statements r.2) = modern_writes module i /\
  warnings r.2 = modern_warnings module i /\
  conn r.2 = modern_after module i.
Proof.
  intros Hconn r. subst r.
  unfold Modern.main, exits_with. rewrite Hconn. cbn [negb].
  unfold modern_after, modern_writes, modern_warnings, modern_changed.
  unfold bind, try_except.
  destruct (can_change (params module !!! "guc") i) eqn:Hc; cbn [andb].
  - destruct (modern_reconcile_configurable module (open_cursor i) Hc)
      as (s' & l & E & Hst & Hw & Hwarn & Hcn).
    cbn [conn open_cursor statements warnings] in *.
    rewrite E.
    set (c := modern_decision _ _ _ i) in *.
    destruct (check_mode module), c; cbn in Hst, Hw, Hcn |- *;
      (split; [reflexivity|]); rewrite Hst, Hw, Hwarn, Hcn; auto.
  - destruct (modern_reconcile_guarded module (open_cursor i) Hc)
      as (s' & E & Hst & Hwarn & Hcn).
    cbn [conn open_cursor statements warnings] in *.
    rewrite E. cbn. rewrite Hst, Hwarn, Hcn, andb_false_r. cbn. auto.
Qed.

End PgMain.

(** ** The catalog under writes *)

Section PgState.

Import Pg.
Implicit Types (i j : Instance).

Lemma can_change_false i n : can_change n i = false <-> NonConfigurable i n.
Proof.
  unfold NonConfigurable. split.
  - intros H r Hin Hn.
    destruct (String.eqb (pg_context r) "internal") eqn:E;
      [apply String.eqb_eq in E; exact E|].
    apply String.eqb_neq in E.
    assert (Hc : can_change n i = true) by (apply can_change_spec; exists r; auto).
    congruence.
  - intros H. destruct (can_change n i) eqn:E; [|reflexivity].
    apply can_change_spec in E as (r & Hin & Hn & Hc).
    destruct (Hc (H r Hin Hn)).
Qed.

Lemma exec_settings q i : pg_settings (exec q i).2 = pg_settings i.
Proof.
  destruct q; try reflexivity; cbn [exec]; unfold alter_system;
    match goal with |- context [can_change ?n i] => destruct (can_change n i) end;
    reflexivity.
Qed.

Lemma can_change_ext i j n :
  pg_settings i = pg_settings j -> can_change n i = can_change n j.
Proof. intros E. unfold can_change, exists_row. rewrite E. reflexivity. Qed.

Lemma at_default_ext i j n :
  pg_settings i = pg_settings j -> at_default n i = at_default n j.
Proof. intros E. unfold at_default, exists_row. rewrite E. reflexivity. Qed.

Lemma matches_ext i j n v :
  pg_settings i = pg_settings j -> matches n v i = matches n v j.
Proof. intros E. unfold matches. rewrite E. reflexivity. Qed.

Lemma modern_changed_ext module i j :
  pg_settings i = pg_settings j ->
  modern_changed module i = modern_changed module j.
Proof.
  intros E. unfold modern_changed, modern_decision.
  rewrite (can_change_ext i j), (at_default_ext i j), (matches_ext i j) by exact E.
  reflexivity.
Qed.

End PgState.

(** ** The checks and the apply operations *)

Section Checks.

Import Pg.
Implicit Types (s : Session Instance) (i : Instance).

Lemma matches_spec i n v : matches n v i = true <-> MatchesDesired i n v.
Proof.
  unfold matches, MatchesDesired.
  destruct (List.find (named n) (pg_settings i)) as [r|]; split.
  - intros H. apply String.eqb_eq in H. eauto.
  - intros (r' & [= <-] & H). apply String.eqb_eq. exact H.
  - discriminate.
  - intros (r' & [=] & _).
Qed.

Lemma at_default_no_row i n : NoRow i n -> at_default n i = false.
Proof.
  intros H. destruct (at_default n i) eqn:E; [|reflexivity].
  apply at_default_spec in E as (r & Hin & Hn & _). destruct (H r Hin Hn).
Qed.

Lemma returns_of_run {A} (m : Py Instance A) s a s' l ws :
  m s = (Ok a, s') -> statements s' = (statements s ++ l)%list ->
  writes l = ws -> returns m s a ws.
Proof. intros. exists s', l. auto. Qed.

(** The is-default check of either variant on a name without a row. *)
Lemma is_guc_default_no_row name s :
  NoRow (conn s) name ->
  returns (Modern.is_guc_default exec name) s (VBool false) [].
Proof.
  intros H. pose proof (run_is_guc_default name s) as E.
  rewrite (at_default_no_row _ _ H) in E.
  eapply returns_of_run; [exact E | reflexivity | reflexivity].
Qed.

Lemma option_isdefault_no_row name s :
  NoRow (conn s) name ->
  returns (Early.option_isdefault exec name) s false [].
Proof.
  intros H. unfold Early.option_isdefault.
  eapply returns_of_run with (l := [Q_option_isdefault name]).
  - unfold bind, execute. cbn [exec]. unfold select_where_name.
    rewrite (filter_named_nil _ _ H). reflexivity.
  - reflexivity.
  - reflexivity.
Qed.

End Checks.

(** ** Names that hold a quote *)

Section OpenQuotes.

Context {db : Type}.
Variable exec : Query -> db -> Reply * db.
Hypothesis Hrejects : rejects_open_quotes exec.

(** A statement whose text leaves a quote open is raised by [execute]. *)
Lemma execute_open_quote (q : Query) (s : Session db) :
  Lexing.lex (sql_text q) = None ->
  exists msg s',
    execute exec q s = (Raise (DatabaseError msg), s') /\
    statements s' = (statements s ++ [q])%list /\
    warnings s' = warnings s.
Proof.
  intros Hlex. destruct (Hrejects q (conn s) Hlex) as [msg Hm].
  unfold execute. destruct (exec q (conn s)) as [r d]. cbn in Hm. subst r.
  exists msg. eexists. split; [reflexivity|]. cbn. auto.
Qed.

Lemma option_isdefault_open_quote (s : Session db) :
  exists msg,
    raises (Early.option_isdefault exec demo_quoted_name) s
      (DatabaseError msg) [].
Proof.
  destruct (execute_open_quote (Q_option_isdefault demo_quoted_name) s)
    as (msg & s' & E & Hst & _); [vm_compute; reflexivity|].
  exists msg, s', [Q_option_isdefault demo_quoted_name].
  split; [|split; [exact Hst | reflexivity]].
  unfold Early.option_isdefault. erewrite bind_raise by exact E. reflexivity.
Qed.

Lemma option_reset_open_quote (s : Session db) :
  exists msg,
    raises (Early.option_reset exec demo_quoted_name) s
      (DatabaseError msg) [].
Proof.
  destruct (option_isdefault_open_quote s) as (msg & s' & l & E & Hst & Hw).
  exists msg, s', l. split; [|split; [exact Hst | exact Hw]].
  unfold Early.option_reset. erewrite bind_raise by exact E. reflexivity.
Qed.

Variable connect : gmap string string -> option string.

Lemma early_main_open_quote (module : AnsibleModule) (d : db) :
  connect (connect_kwargs (params module)) = None ->
  params module !!! "option" = demo_quoted_name ->
  let r := Early.main exec true connect module d in
  (exists msg, exits_with r (fail_json ("Database query failed: " ++ msg))) /\
  warnings r.2 = [] /\
  statements r.2 = [Q_option_ispreset demo_quoted_name].
Proof.
  intros Hconn Hname r. subst r.
  destruct (execute_open_quote (Q_option_ispreset demo_quoted_name)
              (open_cursor d))
    as (msg & s' & E & Hst & Hw); [vm_compute; reflexivity|].
  assert (Er : Early.reconcile exec module (open_cursor d) =
               (Raise (DatabaseError msg), s')).
  { unfold Early.reconcile. rewrite Hname. unfold Early.option_ispreset.
    erewrite !bind_raise by (erewrite bind_raise by exact E; reflexivity).
    reflexivity. }
  unfold Early.main, exits_with. rewrite Hconn. cbn [negb].
  unfold bind, try_except. rewrite Er. cbn. rewrite Hst, Hw.
  split; [exists msg; reflexivity|]. auto.
Qed.

End OpenQuotes.

Lemma demo_unavailable_rejects : rejects_open_quotes demo_unavailable.
Proof. intros q d _. eexists. reflexivity. Qed.

(** C6. Missing row: for a name with no row in [pg_settings] the
    is-default check of the modern variant returns false without raising,
    and so does that of the early variant when the name holds no single
    quote.  On a name that holds one the early check raises instead: the
    name is formatted into the text, the quote closes the literal, and the
    server is sent a text with a quote left open. *)
Theorem is_default_missing_row :
  (forall (name : string) (s : Session Pg.Instance),
     Pg.NoRow (conn s) name ->
     returns (Modern.is_guc_default Pg.exec name) s (VBool false) []) /\
  (forall (name : string) (s : Session Pg.Instance),
     Lexing.no_squote name = true ->
     Pg.NoRow (conn s) name ->
     returns (Early.option_isdefault Pg.exec name) s false []) /\
  (forall (db : Type) (exec : Query -> db -> Reply * db) (s : Session db),
     rejects_open_quotes exec ->
     Lexing.lex (sql_text (Q_option_isdefault demo_quoted_name)) = None /\
     exists msg,
       raises (Early.option_isdefault exec demo_quoted_name) s
         (DatabaseError msg) []).
Proof.
  split; [|split].
  - intros name s H. apply is_guc_default_no_row. exact H.
  - intros name s _ H. apply option_isdefault_no_row. exact H.
  - intros db exec s H. split; [vm_compute; reflexivity|].
    apply option_isdefault_open_quote. exact H.
Qed.

Lemma is_default_missing_row_witness :
  returns (Modern.is_guc_default Pg.exec "no_such_parameter")
    (open_cursor demo_instance) (VBool false) [] /\
  returns (Early.option_isdefault Pg.exec "no_such_parameter")
    (open_cursor demo_instance) false [] /\
  (exists msg,
     raises (Early.option_isdefault demo_unavailable demo_quoted_name)
       (open_cursor demo_instance) (DatabaseError msg) []).
Proof.
  assert (H : Pg.NoRow (conn (open_cursor demo_instance)) "no_such_parameter").
  { apply find_named_none. vm_compute. reflexivity. }
  destruct is_default_missing_row as (Hm & He & Hq).
  split; [apply Hm; exact H|].
  split; [apply He; [reflexivity | exact H]|].
  apply (Hq _ demo_unavailable _ demo_unavailable_rejects).
Defined.

(** ** Reconciliation runs *)

Lemma modern_writes_ext module i j :
  Pg.pg_settings i = Pg.pg_settings j ->
  modern_writes module i = modern_writes module j.
Proof.
  intros E. unfold modern_writes. rewrite (modern_changed_ext module i j E).
  reflexivity.
Qed.

Lemma modern_writes_unchanged module i :
  modern_changed module i = false -> modern_writes module i = [].
Proof. intros E. unfold modern_writes. rewrite E, andb_false_r. reflexivity. Qed.

Lemma modern_after_unchanged module i :
  modern_changed module i = false -> modern_after module i = i.
Proof.
  intros E. unfold modern_after. rewrite (modern_writes_unchanged _ _ E).
  reflexivity.
Qed.

(** C1 as stated fails: with no reload between the two runs, the second run
    of the same desired state sends the same [ALTER SYSTEM] again and
    reports [changed = true] again. *)
Lemma idempotence_fails_without_reload :
  exits_with
    (Modern.main Pg.exec true demo_connect demo_set_work_mem demo_instance)
    (exit_json true "work_mem") /\
  exits_with
    (Modern.main Pg.exec true demo_connect demo_set_work_mem
       (conn (Modern.main Pg.exec true demo_connect demo_set_work_mem
                demo_instance).2))
    (exit_json true "work_mem") /\
  ~ exits_with
      (Modern.main Pg.exec true demo_connect demo_set_work_mem
         (conn (Modern.main Pg.exec true demo_connect demo_set_work_mem
                  demo_instance).2))
      (exit_json false "work_mem") /\
  writes
    (statements
       (Modern.main Pg.exec true demo_connect demo_set_work_mem
          (conn (Modern.main Pg.exec true demo_connect demo_set_work_mem
                   demo_instance).2)).2)
  = [Q_do_guc_set "work_mem" "8MB"].
Proof.
  vm_compute. repeat split. intros H. discriminate H.
Qed.

(** C2. Non-configurable guard: when every row of the name (if any) is of
    the internal context, a run, whatever the desired state, value and
    check-mode flag, sends no write (only the configurability check),
    emits the warning and exits successfully with [changed = false]. *)
Theorem non_configurable_guard :
  forall (connect : gmap string string -> option string)
         (module : AnsibleModule) (i : Pg.Instance),
    connect (connect_kwargs (params module)) = None ->
    let guc := params module !!! "guc" in
    Pg.NonConfigurable i guc ->
    let r := Modern.main Pg.exec true connect module i in
    exits_with r (exit_json false guc) /\
    writes (statements r.2) = [] /\
    warnings r.2 = [modern_warning guc] /\
    conn r.2 = i.
Proof.
  intros connect module i Hconn guc Hn r.
  apply can_change_false in Hn.
  destruct (modern_main_pg connect module i Hconn) as (E & W & Wn & C).
  fold r in E, W, Wn, C.
  assert (Hch : modern_changed module i = false).
  { unfold modern_changed. fold guc. rewrite Hn. reflexivity. }
  rewrite Hch in E. rewrite (modern_writes_unchanged _ _ Hch) in W.
  rewrite (modern_after_unchanged _ _ Hch) in C.
  unfold modern_warnings in Wn. fold guc in Wn. rewrite Hn in Wn. auto.
Qed.

Lemma non_configurable_guard_witness :
  Pg.NonConfigurable demo_instance "block_size" /\
  exits_with
    (Modern.main Pg.exec true demo_connect demo_set_block_size demo_instance)
    (exit_json false "block_size") /\
  writes
    (statements
       (Modern.main Pg.exec true demo_connect demo_set_block_size
          demo_instance).2) = [] /\
  warnings
    (Modern.main Pg.exec true demo_connect demo_set_block_size demo_instance).2
  = [modern_warning "block_size"] /\
  conn (Modern.main Pg.exec true demo_connect demo_set_block_size demo_instance).2
  = demo_instance.
Proof.
  assert (H : Pg.NonConfigurable demo_instance "block_size").
  { apply can_change_false. vm_compute. reflexivity. }
  split; [exact H|].
  exact (non_configurable_guard demo_connect demo_set_block_size demo_instance
           eq_refl H).
Defined.

(** ** Runs on the catalog model when the server decides on the write *)

Section Served.

Import Pg.
Implicit Types (s : Session Instance) (i : Instance).

Variable write : Query -> Instance -> Reply * Instance.

(** [execute(w); return True] for a write [w]. *)
Lemma run_write (w : Query) s :
  is_write w = true ->
  exists s',
    (execute (serve write) w ;; ret true)%py s =
      (write_result (write w (conn s)).1, s') /\
    statements s' = (statements s ++ [w])%list /\
    warnings s' = warnings s /\
    conn s' = (write w (conn s)).2.
Proof.
  intros Hw. unfold bind, execute, serve. rewrite Hw.
  destruct (write w (conn s)) as [[msg|rows|] d]; cbn;
    eexists; (split; [reflexivity|]); auto.
Qed.

Lemma served_do_guc_reset guc s :
  exists s',
    Modern.do_guc_reset (serve write) guc s =
      ((if at_default guc (conn s) then Ok false
        else write_result (write (Q_do_guc_reset guc) (conn s)).1), s') /\
    statements s' =
      (statements s ++
       Q_is_guc_default guc ::
       if at_default guc (conn s) then [] else [Q_do_guc_reset guc])%list /\
    warnings s' = warnings s /\
    conn s' = (if at_default guc (conn s) then conn s
               else (write (Q_do_guc_reset guc) (conn s)).2).
Proof.
  unfold Modern.do_guc_reset.
  erewrite bind_ok by (exact (run_is_guc_default guc s)).
  cbn [truthy]. destruct (at_default guc (conn s)); cbn [negb]; cbv iota.
  - eexists. split; [reflexivity|]. cbn. auto.
  - destruct (run_write (Q_do_guc_reset guc)
                (ran s (conn s) (Q_is_guc_default guc) (Some []) 1) eq_refl)
      as (s' & E & Hst & Hw & Hc).
    exists s'. split; [exact E|]. cbn in Hst, Hw, Hc.
    rewrite Hst, <- app_assoc. auto.
Qed.

Lemma served_do_guc_set guc value s :
  can_change guc (conn s) = true ->
  exists s',
    Modern.do_guc_set (serve write) guc value s =
      ((if matches guc value (conn s) then Ok false
        else write_result (write (Q_do_guc_set guc value) (conn s)).1), s') /\
    statements s' =
      (statements s ++
       Q_guc_matches guc value ::
       if matches guc value (conn s) then []
       else [Q_do_guc_set guc value])%list /\
    warnings s' = warnings s /\
    conn s' = (if matches guc value (conn s) then conn s
               else (write (Q_do_guc_set guc value) (conn s)).2).
Proof.
  intros Hc. unfold Modern.do_guc_set.
  erewrite bind_ok by (exact (run_guc_matches' guc value s Hc)).
  cbn [truthy]. destruct (matches guc value (conn s)); cbn [negb]; cbv iota.
  - eexists. split; [reflexivity|]. cbn. auto.
  - destruct (run_write (Q_do_guc_set guc value)
                (ran s (conn s) (Q_guc_matches guc value) (Some []) 1) eq_refl)
      as (s' & E & Hst & Hw & Hcn).
    exists s'. split; [exact E|]. cbn in Hst, Hw, Hcn.
    rewrite Hst, <- app_assoc. auto.
Qed.

(** What the body of the modern [main] returns or raises. *)
Lemma modern_reconcile_served module s :
  let guc := params module !!! "guc" in
  let i := conn s in
  exists s',
    Modern.reconcile (serve write) module s =
      ((if can_change guc i && check_mode module
        then Raise (SystemExit (exit_json (modern_changed module i) guc))
        else match modern_writes module i with
             | [] => Ok (modern_changed module i)
             | w :: _ => write_result (write w i).1
             end), s') /\
    statements s' = (statements s ++ modern_log module i)%list /\
    warnings s' = (warnings s ++ modern_warnings module i)%list /\
    conn s' = modern_served_after write module i.
Proof.
  intros guc i.
  unfold modern_served_after, modern_log, modern_writes,
    modern_warnings, modern_changed, modern_decision, modern_check,
    modern_write.
  fold guc. fold i.
  set (value := params module !!! "value").
  set (state := params module !!! "state").
  unfold Modern.reconcile. fold guc value state.
  erewrite bind_ok by (exact (run_is_guc_configurable guc s)).
  fold i. cbn [truthy].
  destruct (can_change guc i) eqn:Hc; cbn [andb]; cbv iota.
  2:{ rewrite andb_false_r. eexists. split; [reflexivity|]. cbn. auto. }
  destruct (check_mode module); cbn [negb andb].
  - (* check mode *)
    destruct (String.eqb state "absent").
    + eexists. split; [reflexivity|]. cbn. rewrite <- app_assoc.
      rewrite app_nil_r. auto.
    + destruct (String.eqb state "present").
      * unfold bind at 1. unfold bind at 1.
        erewrite bind_ok
          by (apply run_guc_matches'; cbn [ran conn]; exact Hc).
        eexists. split; [reflexivity|]. cbn. rewrite <- app_assoc.
        rewrite app_nil_r. auto.
      * eexists. split; [reflexivity|]. cbn. rewrite app_nil_r. auto.
  - erewrite bind_ok by reflexivity.
    destruct (String.eqb state "absent").
    + destruct (served_do_guc_reset guc
                  (ran s i (Q_is_guc_configurable guc) (Some []) 1))
        as (s' & E & Hst & Hw & Hcn).
      cbn [ran conn statements warnings] in E, Hst, Hw, Hcn.
      exists s'. rewrite E, Hst, Hw, Hcn, <- app_assoc, app_nil_r.
      destruct (at_default guc i); cbn; auto.
    + destruct (String.eqb state "present").
      * destruct (served_do_guc_set guc value
                    (ran s i (Q_is_guc_configurable guc) (Some []) 1) Hc)
          as (s' & E & Hst & Hw & Hcn).
        cbn [ran conn statements warnings] in E, Hst, Hw, Hcn.
        exists s'. rewrite E, Hst, Hw, Hcn, <- app_assoc, app_nil_r.
        destruct (matches guc value i); cbn; auto.
      * eexists. split; [reflexivity|]. cbn. rewrite app_nil_r. auto.
Qed.

Variable connect : gmap string string -> option string.

(** [Modern.main] on the catalog model, the server deciding on the write. *)
Lemma modern_main_served module i :
  connect (connect_kwargs (params module)) = None ->
  let r := Modern.main (serve write) true connect module i in
  exits_with r (modern_served_exit write module i) /\
  statements r.2 = modern_log module i /\
  warnings r.2 = modern_warnings module i /\
  conn r.2 = modern_served_after write module i.
Proof.
  intros Hconn r. subst r.
  unfold Modern.main, exits_with. rewrite Hconn. cbn [negb].
  destruct (modern_reconcile_served module (open_cursor i))
    as (s' & E & Hst & Hw & Hcn).
  cbn [conn open_cursor statements warnings] in E, Hst, Hw, Hcn.
  unfold bind, try_except. rewrite E.
  unfold modern_served_exit, exit_after_write.
  unfold modern_writes in *.
  destruct (can_change (params module !!! "guc") i) eqn:Hc;
    destruct (check_mode module);
    unfold modern_changed in *; rewrite ?Hc in *; cbn [andb negb] in *.
  - destruct (modern_decision _ _ _ i); cbn; auto.
  - destruct (modern_decision _ _ _ i); cbn [andb].
    + destruct (write _ i) as [[msg|rows|] d]; cbn; auto.
    + cbn. auto.
  - cbn. auto.
  - cbn. auto.
Qed.

End Served.

Section ServedFacts.

Import Pg.
Implicit Types (s : Session Instance) (i : Instance).

Lemma raises_of_run {A} (m : Py Instance A) s e s' l ws :
  m s = (Raise e, s') -> statements s' = (statements s ++ l)%list ->
  writes l = ws -> raises m s e ws.
Proof. intros. exists s', l. auto. Qed.

Lemma accepted_result (r : Reply) :
  (forall msg, r <> QueryFailed msg) -> write_result r = Ok true.
Proof. destruct r as [msg| |]; [intros H; destruct (H msg); reflexivity | |]; reflexivity. Qed.

Lemma writes_modern_check state guc value :
  writes (modern_check state guc value) = [].
Proof.
  unfold modern_check.
  destruct (String.eqb state "absent"); [reflexivity|].
  destruct (String.eqb state "present"); reflexivity.
Qed.

Lemma writes_modern_writes module i :
  writes (modern_writes module i) = modern_writes module i.
Proof.
  unfold modern_writes, modern_write.
  destruct (_ && _); [|reflexivity].
  destruct (String.eqb _ "absent"); reflexivity.
Qed.

Lemma writes_modern_log module i :
  writes (modern_log module i) = modern_writes module i.
Proof.
  unfold modern_log. cbn [writes List.filter is_write]. fold (writes).
  destruct (can_change (params module !!! "guc") i) eqn:Hc.
  - unfold writes. rewrite List.filter_app. fold (writes).
    change (List.filter is_write ?l) with (writes l).
    rewrite writes_modern_check, writes_modern_writes. reflexivity.
  - unfold modern_writes, modern_changed. rewrite Hc, andb_false_r.
    reflexivity.
Qed.

Lemma modern_log_ext module i j :
  pg_settings i = pg_settings j -> modern_log module i = modern_log module j.
Proof.
  intros E. unfold modern_log.
  rewrite (can_change_ext i j _ E), (modern_writes_ext module i j E).
  reflexivity.
Qed.

Lemma modern_writes_cases module i :
  modern_writes module i = [] /\
    (check_mode module = true \/ modern_changed module i = false) \/
  modern_writes module i =
    [modern_write (params module !!! "state") (params module !!! "guc")
       (params module !!! "value")] /\
    check_mode module = false /\ modern_changed module i = true.
Proof.
  unfold modern_writes.
  destruct (check_mode module), (modern_changed module i); cbn; auto.
Qed.

Lemma modern_served_after_settings write module i :
  (forall q j, pg_settings (write q j).2 = pg_settings j) ->
  pg_settings (modern_served_after write module i) = pg_settings i.
Proof.
  intros Hfr. unfold modern_served_after.
  destruct (modern_writes_cases module i) as [[-> _] | [-> _]]; cbn; auto.
Qed.

End ServedFacts.

(** C4 (amended). Changed postcondition of the apply operations, the
    server deciding on the write: on a configurable parameter,
    [do_guc_reset] returns [False] with no write when the parameter is at
    its boot default; otherwise it sends exactly one [ALTER SYSTEM RESET]
    and returns [True] when the server accepts it, and raises the server's
    error when the server rejects it.  [do_guc_set] returns [False] with
    no write when the value in effect is the desired one; otherwise it
    sends exactly one [ALTER SYSTEM SET] and returns [True] when the
    server accepts it, and raises the server's error when it does not. *)
Theorem apply_changed_postcondition :
  forall (write : Query -> Pg.Instance -> Reply * Pg.Instance)
         (guc value : string) (s : Session Pg.Instance),
    Pg.IsConfigurable (conn s) guc ->
    let reset := Q_do_guc_reset guc in
    let set := Q_do_guc_set guc value in
    (Pg.IsAtDefault (conn s) guc ->
       returns (Modern.do_guc_reset (Pg.serve write) guc) s false []) /\
    (~ Pg.IsAtDefault (conn s) guc ->
       ((forall msg, (write reset (conn s)).1 <> QueryFailed msg) ->
        returns (Modern.do_guc_reset (Pg.serve write) guc) s true [reset]) /\
       (forall msg, (write reset (conn s)).1 = QueryFailed msg ->
        raises (Modern.do_guc_reset (Pg.serve write) guc) s
          (DatabaseError msg) [reset])) /\
    (Pg.MatchesDesired (conn s) guc value ->
       returns (Modern.do_guc_set (Pg.serve write) guc value) s false []) /\
    (~ Pg.MatchesDesired (conn s) guc value ->
       ((forall msg, (write set (conn s)).1 <> QueryFailed msg) ->
        returns (Modern.do_guc_set (Pg.serve write) guc value) s true [set]) /\
       (forall msg, (write set (conn s)).1 = QueryFailed msg ->
        raises (Modern.do_guc_set (Pg.serve write) guc value) s
          (DatabaseError msg) [set])).
Proof.
  intros write guc value s Hc reset set. subst reset set.
  apply can_change_spec in Hc.
  destruct (served_do_guc_reset write guc s) as (sr & Er & Lr & _).
  destruct (served_do_guc_set write guc value s Hc) as (ss & Es & Ls & _).
  split; [|split; [|split]].
  - intros H. apply at_default_spec in H. rewrite H in Er, Lr.
    eapply returns_of_run; [exact Er | exact Lr | reflexivity].
  - intros H. destruct (Pg.at_default guc (conn s)) eqn:E.
    { destruct H. apply at_default_spec. exact E. }
    split.
    + intros Hok. rewrite (accepted_result _ Hok) in Er.
      eapply returns_of_run; [exact Er | exact Lr | reflexivity].
    + intros msg Hno. rewrite Hno in Er.
      eapply raises_of_run; [exact Er | exact Lr | reflexivity].
  - intros H. apply matches_spec in H. rewrite H in Es, Ls.
    eapply returns_of_run; [exact Es | exact Ls | reflexivity].
  - intros H. destruct (Pg.matches guc value (conn s)) eqn:E.
    { destruct H. apply matches_spec. exact E. }
    split.
    + intros Hok. rewrite (accepted_result _ Hok) in Es.
      eapply returns_of_run; [exact Es | exact Ls | reflexivity].
    + intros msg Hno. rewrite Hno in Es.
      eapply raises_of_run; [exact Es | exact Ls | reflexivity].
Qed.

Lemma apply_changed_postcondition_witness :
  Pg.IsConfigurable (conn (open_cursor demo_instance)) "work_mem" /\
  returns (Modern.do_guc_reset demo_validating "work_mem")
    (open_cursor demo_instance) false [] /\
  returns (Modern.do_guc_set demo_validating "work_mem" "8MB")
    (open_cursor demo_instance) true [Q_do_guc_set "work_mem" "8MB"] /\
  raises (Modern.do_guc_set demo_validating "work_mem" "")
    (open_cursor demo_instance)
    (DatabaseError "invalid value for parameter work_mem")
    [Q_do_guc_set "work_mem" ""].
Proof.
  assert (Hc : Pg.IsConfigurable (conn (open_cursor demo_instance)) "work_mem").
  { apply can_change_spec. vm_compute. reflexivity. }
  split; [exact Hc|].
  destruct (apply_changed_postcondition demo_validate "work_mem" "8MB" _ Hc)
    as (Hreset & _ & _ & Hset).
  destruct (apply_changed_postcondition demo_validate "work_mem" "" _ Hc)
    as (_ & _ & _ & Hempty).
  split; [|split].
  - apply Hreset. apply at_default_spec. vm_compute. reflexivity.
  - apply Hset.
    + intros H. apply matches_spec in H. vm_compute in H. discriminate H.
    + intros msg. vm_compute. discriminate.
  - apply Hempty.
    + intros H. apply matches_spec in H. vm_compute in H. discriminate H.
    + reflexivity.
Defined.

(** C4 as stated fails: [work_mem] is configurable and its value in effect
    is not the empty string, yet [do_guc_set] does not return [True]: the
    server rejects the value, and the call raises after its one write. *)
Lemma apply_set_raises_on_rejected_value :
  Pg.IsConfigurable (conn (open_cursor demo_instance)) "work_mem" /\
  ~ Pg.MatchesDesired (conn (open_cursor demo_instance)) "work_mem" "" /\
  raises (Modern.do_guc_set demo_validating "work_mem" "")
    (open_cursor demo_instance)
    (DatabaseError "invalid value for parameter work_mem")
    [Q_do_guc_set "work_mem" ""] /\
  ~ returns (Modern.do_guc_set demo_validating "work_mem" "")
      (open_cursor demo_instance) true [Q_do_guc_set "work_mem" ""].
Proof.
  split; [apply can_change_spec; vm_compute; reflexivity|].
  split; [intros H; apply matches_spec in H; vm_compute in H; discriminate H|].
  split.
  - eexists. exists [Q_guc_matches "work_mem" ""; Q_do_guc_set "work_mem" ""].
    split; [vm_compute; reflexivity|]. split; reflexivity.
  - intros (s' & l & E & _). vm_compute in E. discriminate E.
Qed.

(** C3 (amended). Dry-run equivalence, the server deciding on the write: a
    check-mode run sends no write and leaves the instance as it found it,
    and it always reports a [changed] value.  When that value is [False],
    the run without check mode that follows reports [False] too and sends
    no write.  When it is [True], the following run sends exactly the one
    write, and reports [changed = True] when the server accepts the write
    and ends in [fail_json] with the server's message when it does not. *)
Theorem dry_run_equivalence :
  forall (write : Query -> Pg.Instance -> Reply * Pg.Instance)
         (connect : gmap string string -> option string)
         (module : AnsibleModule) (i : Pg.Instance),
    connect (connect_kwargs (params module)) = None ->
    let guc := params module !!! "guc" in
    let w := modern_write (params module !!! "state") guc
               (params module !!! "value") in
    let dry :=
      Modern.main (Pg.serve write) true connect (with_check_mode true module) i in
    let real :=
      Modern.main (Pg.serve write) true connect (with_check_mode false module)
        (conn dry.2) in
    writes (statements dry.2) = [] /\
    conn dry.2 = i /\
    exists c : bool,
      exits_with dry (exit_json c guc) /\
      (c = false ->
       exits_with real (exit_json false guc) /\
       writes (statements real.2) = []) /\
      (c = true ->
       writes (statements real.2) = [w] /\
       ((forall msg, (write w i).1 <> QueryFailed msg) ->
        exits_with real (exit_json true guc)) /\
       (forall msg, (write w i).1 = QueryFailed msg ->
        exits_with real (fail_json ("Database query failed: " ++ msg)))).
Proof.
  intros write connect module i Hconn guc w dry real.
  destruct (modern_main_served write connect (with_check_mode true module) i
              Hconn) as (E1 & L1 & _ & C1).
  fold dry in E1, L1, C1.
  assert (Hafter : conn dry.2 = i) by (rewrite C1; reflexivity).
  destruct (modern_main_served write connect (with_check_mode false module)
              (conn dry.2) Hconn) as (E2 & L2 & _).
  fold real in E2, L2. rewrite Hafter in E2, L2.
  split; [rewrite L1, writes_modern_log; reflexivity|].
  split; [exact Hafter|].
  exists (modern_changed module i). split; [exact E1|].
  rewrite L2, writes_modern_log.
  unfold modern_served_exit, modern_writes in *.
  change (modern_changed (with_check_mode false module) i)
    with (modern_changed module i) in *.
  cbn [check_mode with_check_mode negb andb params] in *.
  fold guc in E2. fold w in E2. fold w.
  split; intros Hc; rewrite Hc in *.
  - auto.
  - split; [reflexivity|]. unfold exit_after_write in E2. split.
    + intros Hok. destruct (write w i).1 as [msg| |];
        [destruct (Hok msg); reflexivity | exact E2 | exact E2].
    + intros msg Hno. rewrite Hno in E2. exact E2.
Qed.

Lemma dry_run_equivalence_witness :
  exists c : bool,
    exits_with
      (Modern.main demo_validating true demo_connect
         (with_check_mode true demo_set_empty) demo_instance)
      (exit_json c "work_mem") /\
    (c = true ->
     writes
       (statements
          (Modern.main demo_validating true demo_connect
             (with_check_mode false demo_set_empty)
             (conn (Modern.main demo_validating true demo_connect
                      (with_check_mode true demo_set_empty)
                      demo_instance).2)).2)
     = [Q_do_guc_set "work_mem" ""]).
Proof.
  destruct (dry_run_equivalence demo_validate demo_connect demo_set_empty
              demo_instance eq_refl) as (_ & _ & c & E & _ & H).
  exists c. split; [exact E|]. intros Hc. apply (H Hc).
Defined.

(** C3 as stated fails: for [work_mem] and the default value, the empty
    string, the check-mode run reports [changed = True], and the run
    without check mode that follows does not report it: the server rejects
    the value and the run ends in [fail_json]. *)
Lemma dry_run_predicts_a_rejected_change :
  exits_with
    (Modern.main demo_validating true demo_connect
       (with_check_mode true demo_set_empty) demo_instance)
    (exit_json true "work_mem") /\
  exits_with
    (Modern.main demo_validating true demo_connect
       (with_check_mode false demo_set_empty)
       (conn (Modern.main demo_validating true demo_connect
                (with_check_mode true demo_set_empty) demo_instance).2))
    (fail_json
       "Database query failed: invalid value for parameter work_mem") /\
  (forall c : bool,
     ~ exits_with
         (Modern.main demo_validating true demo_connect
            (with_check_mode false demo_set_empty)
            (conn (Modern.main demo_validating true demo_connect
                     (with_check_mode true demo_set_empty) demo_instance).2))
         (exit_json c "work_mem")).
Proof.
  split; [vm_compute; reflexivity|].
  split; [vm_compute; reflexivity|].
  intros c H. vm_compute in H. discriminate H.
Qed.

(** C1 (amended). Idempotence holds once the server shows the desired
    state.  A run that is not a dry run, on a configurable parameter,
    reports [changed = False] and sends no write exactly when the server
    shows the parameter at its boot default ([state=absent]) or its value
    in effect equal to the desired text ([state=present]).  [ALTER SYSTEM]
    leaves what the server shows as it is, so the run that follows a
    completed run on the instance as that run left it executes the same
    statements: it reports [False] again after a [False], and after a
    [True] it sends the same [ALTER SYSTEM] again, reporting [True] again
    when the server accepts it. *)
Theorem idempotent_when_state_shows :
  forall (write : Query -> Pg.Instance -> Reply * Pg.Instance)
         (connect : gmap string string -> option string)
         (module : AnsibleModule) (i j : Pg.Instance),
    connect (connect_kwargs (params module)) = None ->
    check_mode module = false ->
    let guc := params module !!! "guc" in
    let value := params module !!! "value" in
    let state := params module !!! "state" in
    let w := modern_write state guc value in
    let first := Modern.main (Pg.serve write) true connect module i in
    let again :=
      Modern.main (Pg.serve write) true connect module (conn first.2) in
    let later := Modern.main (Pg.serve write) true connect module j in
    (forall c1 : bool,
       (forall q d, Pg.pg_settings (write q d).2 = Pg.pg_settings d) ->
       exits_with first (exit_json c1 guc) ->
       statements again.2 = statements first.2 /\
       (c1 = false ->
        exits_with again (exit_json false guc) /\
        writes (statements again.2) = []) /\
       (c1 = true ->
        writes (statements again.2) = [w] /\
        ((forall msg, (write w (conn first.2)).1 <> QueryFailed msg) ->
         exits_with again (exit_json true guc)))) /\
    (Pg.IsConfigurable j guc ->
     (state = "absent" ->
      (exits_with later (exit_json false guc) /\
       writes (statements later.2) = [] <-> Pg.IsAtDefault j guc)) /\
     (state = "present" ->
      (exits_with later (exit_json false guc) /\
       writes (statements later.2) = [] <-> Pg.MatchesDesired j guc value))).
Proof.
  intros write connect module i j Hconn Hcm guc value state w first again
    later.
  split.
  - intros c1 Hfr Hfirst.
    destruct (modern_main_served write connect module i Hconn)
      as (E1 & L1 & _ & C1).
    fold first in E1, L1, C1.
    destruct (modern_main_served write connect module (conn first.2) Hconn)
      as (E2 & L2 & _).
    fold again in E2, L2.
    assert (Hset : Pg.pg_settings (conn first.2) = Pg.pg_settings i).
    { rewrite C1. apply modern_served_after_settings. exact Hfr. }
    rewrite (modern_log_ext _ _ _ Hset) in L2.
    unfold modern_served_exit in E1, E2.
    rewrite (modern_writes_ext _ _ _ Hset) in E2.
    rewrite (modern_changed_ext _ _ _ Hset) in E2.
    split; [congruence|].
    rewrite L2, writes_modern_log.
    unfold exits_with in *. rewrite E1 in Hfirst.
    destruct (modern_writes_cases module i) as [[Hw Hch] | (Hw & _ & Hch)];
      rewrite Hw in *.
    + destruct Hch as [Hch | Hch]; [congruence|]. rewrite Hch in *.
      split; [auto|].
      intros ->. discriminate Hfirst.
    + fold guc value state in E2. fold w in E2. fold guc value state. fold w.
      split.
      * intros ->. unfold exit_after_write in Hfirst.
        destruct (write _ i).1; discriminate Hfirst.
      * intros _. split; [reflexivity|]. intros Hok.
        unfold exit_after_write in E2.
        destruct (write w (conn first.2)).1 as [msg| |];
          [destruct (Hok msg); reflexivity | exact E2 | exact E2].
  - intros Hc. apply can_change_spec in Hc.
    destruct (modern_main_served write connect module j Hconn)
      as (E & L & _).
    fold later in E, L.
    rewrite L, writes_modern_log.
    unfold modern_served_exit, modern_writes, modern_changed,
      modern_decision in *.
    fold guc value state in E. fold guc value state.
    rewrite Hcm, Hc in *. cbn [negb andb] in *.
    unfold exits_with in *.
    split; intros Hs; rewrite Hs in *; cbn [String.eqb] in *.
    + change ("absent" =? "absent")%string with true in *. cbv iota in *.
      rewrite <- at_default_spec.
      destruct (Pg.at_default guc j); cbn [negb] in *.
      * split; [reflexivity | auto].
      * split; [intros [_ H]; discriminate H | discriminate].
    + change ("present" =? "absent")%string with false in *.
      change ("present" =? "present")%string with true in *. cbv iota in *.
      rewrite <- matches_spec.
      destruct (Pg.matches guc value j); cbn [negb] in *.
      * split; [reflexivity | auto].
      * split; [intros [_ H]; discriminate H | discriminate].
Qed.

Lemma demo_validate_settings (q : Query) (d : Pg.Instance) :
  Pg.pg_settings (demo_validate q d).2 = Pg.pg_settings d.
Proof.
  destruct q; try apply exec_settings; cbn [demo_validate];
    destruct (_ && _); try reflexivity; apply exec_settings.
Qed.

Lemma idempotent_when_state_shows_witness :
  exits_with
    (Modern.main demo_validating true demo_connect demo_set_work_mem
       demo_instance)
    (exit_json true "work_mem") /\
  writes
    (statements
       (Modern.main demo_validating true demo_connect demo_set_work_mem
          (conn (Modern.main demo_validating true demo_connect
                   demo_set_work_mem demo_instance).2)).2)
  = [Q_do_guc_set "work_mem" "8MB"] /\
  exits_with
    (Modern.main demo_validating true demo_connect demo_set_work_mem
       (conn (Modern.main demo_validating true demo_connect
                demo_set_work_mem demo_instance).2))
    (exit_json true "work_mem").
Proof.
  assert (Hfirst :
    exits_with
      (Modern.main demo_validating true demo_connect demo_set_work_mem
         demo_instance)
      (exit_json true "work_mem"))
    by (vm_compute; reflexivity).
  split; [exact Hfirst|].
  destruct (idempotent_when_state_shows demo_validate demo_connect
              demo_set_work_mem demo_instance demo_instance eq_refl eq_refl)
    as [Hrepeat _].
  destruct (Hrepeat true demo_validate_settings Hfirst) as (_ & _ & H).
  destruct (H eq_refl) as [Hw Hexit].
  split; [exact Hw|]. apply Hexit. intros msg. vm_compute. discriminate.
Defined.

(** ** The early variant on the catalog model *)

Section PgEarly.

Import Pg.
Implicit Types (s : Session Instance) (i : Instance).

Lemma rowcount_has_row (cols : Setting -> Row) n i :
  (0 <? Z.of_nat (length (List.map cols (List.filter (named n) (pg_settings i)))))
  = has_row n i.
Proof.
  unfold has_row. induction (pg_settings i) as [|r l IH]; [reflexivity|].
  cbn [List.filter existsb]. destruct (named n r); [reflexivity | exact IH].
Qed.

Lemma head_filter_named n i :
  head (List.filter (named n) (pg_settings i)) = first_row n i.
Proof.
  unfold first_row. induction (pg_settings i) as [|r l IH]; [reflexivity|].
  cbn [List.filter List.find]. destruct (named n r); [reflexivity | exact IH].
Qed.

Lemma has_row_first n i :
  has_row n i = true -> exists r, first_row n i = Some r.
Proof.
  unfold has_row, first_row. intros H.
  apply existsb_exists in H as (r & Hin & Hn).
  destruct (List.find (named n) (pg_settings i)) as [r'|] eqn:E; [eauto|].
  pose proof (find_none _ _ E r Hin). congruence.
Qed.

Lemma first_row_none n i : first_row n i = None <-> NoRow i n.
Proof. apply find_named_none. Qed.

(** A name that has a row and no internal row can be changed. *)
Lemma early_guard_can_change n i :
  early_guard n i = true -> can_change n i = true.
Proof.
  unfold early_guard. intros H. apply andb_prop in H as [Hp Hr].
  apply negb_true_iff in Hp. apply has_row_first in Hr as [r Hr].
  apply find_some in Hr as [Hin Hn].
  unfold can_change, exists_row. apply existsb_exists. exists r.
  split; [exact Hin|]. rewrite Hn, andb_true_r.
  destruct (internal r) eqn:Hi; [|reflexivity].
  assert (Hp' : is_preset n i = true).
  { unfold is_preset, exists_row. apply existsb_exists. exists r.
    rewrite Hi, Hn. auto. }
  congruence.
Qed.

Lemma run_option_ispreset option s :
  Early.option_ispreset exec option s =
  (Ok (VBool (is_preset option (conn s))),
   ran s (conn s) (Q_option_ispreset option) (Some []) 1).
Proof. reflexivity. Qed.

Lemma run_option_exists option s :
  exists rows n,
    Early.option_exists exec option s =
    (Ok (has_row option (conn s)),
     ran s (conn s) (Q_option_exists option) rows n).
Proof.
  unfold Early.option_exists, bind, execute, get_rowcount. cbn [exec fst snd].
  unfold select_where_name. cbn [rowcount ret].
  rewrite rowcount_has_row. eexists. eexists. reflexivity.
Qed.

Lemma run_option_isdefault option s :
  exists rows n,
    Early.option_isdefault exec option s =
    (Ok (early_isdefault option (conn s)),
     ran s (conn s) (Q_option_isdefault option) rows n).
Proof.
  unfold Early.option_isdefault, early_isdefault.
  rewrite <- head_filter_named.
  unfold bind, execute, get_rowcount, fetchone. cbn [exec fst snd].
  unfold select_where_name.
  destruct (List.filter (named option) (pg_settings (conn s))) as [|r l];
    cbn; eexists; eexists; reflexivity.
Qed.

Lemma run_option_get_default_value option s :
  exists rows n,
    Early.option_get_default_value exec option s =
    (match first_row option (conn s) with
     | Some r => Ok (VStr (pg_boot_val r))
     | None => Raise (TypeError "'NoneType' object is not subscriptable")
     end,
     ran s (conn s) (Q_option_get_default_value option) rows n).
Proof.
  unfold Early.option_get_default_value.
  rewrite <- head_filter_named.
  unfold bind, execute, fetchone. cbn [exec fst snd].
  unfold select_where_name.
  destruct (List.filter (named option) (pg_settings (conn s))) as [|r l];
    cbn; eexists; eexists; reflexivity.
Qed.

Lemma run_option_matches option value s :
  has_row option (conn s) = true ->
  Early.option_matches exec option value s =
  (Ok (VBool (matches option value (conn s))),
   ran s (conn s) (Q_option_matches option value) (Some []) 1).
Proof.
  intros H. apply has_row_first in H as [r Hr]. unfold first_row in Hr.
  rewrite (matches_find _ _ _ _ Hr).
  unfold Early.option_matches, bind, execute. cbn [exec fst snd].
  unfold select_current_setting_eq. rewrite Hr. reflexivity.
Qed.

End PgEarly.

Section PgEarlyMain.

Import Pg.
Implicit Types (s : Session Instance) (i : Instance).

Ltac finish_run :=
  eexists; eexists; (split; [reflexivity|]); cbn;
  rewrite <- ?app_assoc; repeat split; eauto; rewrite ?app_nil_r; eauto.

(** The body of the early [main] on the catalog model. *)
Lemma early_reconcile_run module s :
  let option := params module !!! "option" in
  let value := params module !!! "value" in
  let state := params module !!! "state" in
  let i := conn s in
  exists s' l,
    Early.reconcile exec module s =
      ((if early_guard option i && check_mode module
        then Raise (SystemExit
                      (exit_json (early_decision state option value i) option))
        else Ok (early_changed module i)), s') /\
    statements s' = (statements s ++ l)%list /\
    writes l = early_writes module i /\
    warnings s' = (warnings s ++ early_warnings module i)%list /\
    conn s' = early_after module i.
Proof.
  intros option value state i.
  unfold early_after, early_writes, early_warnings, early_changed.
  fold option value state.
  unfold Early.reconcile. fold option value state.
  erewrite bind_ok by apply run_option_ispreset.
  unfold early_guard. fold i.
  destruct (is_preset option i) eqn:Hp; cbn [truthy negb andb]; cbv iota.
  { rewrite andb_false_r. finish_run. }
  destruct (run_option_exists option
              (ran s (conn s) (Q_option_ispreset option) (Some []) 1))
    as (rows & n & Ex).
  erewrite bind_ok by exact Ex. cbn [ran conn]. fold i.
  destruct (has_row option i) eqn:Hr; cbv iota.
  2:{ rewrite andb_false_r. finish_run. }
  assert (Hg : early_guard option i = true)
    by (unfold early_guard; rewrite Hp, Hr; reflexivity).
  pose proof (early_guard_can_change _ _ Hg) as Hc.
  unfold early_decision, early_write.
  destruct (check_mode module); cbn [negb andb].
  - destruct (String.eqb state "absent").
    + unfold bind at 1. unfold bind at 1.
      match goal with
      | |- context [bind (Early.option_isdefault exec option) _ ?s0] =>
        destruct (run_option_isdefault option s0) as (rows' & n' & Ed) end.
      erewrite bind_ok by exact Ed. cbn [ran conn]. fold i.
      finish_run.
    + destruct (String.eqb state "present").
      * unfold bind at 1. unfold bind at 1.
        erewrite bind_ok by (apply run_option_matches; exact Hr).
        cbn [ran conn]. fold i.
        finish_run.
      * finish_run.
  - erewrite bind_ok by reflexivity.
    destruct (String.eqb state "absent").
    + unfold Early.option_reset.
      match goal with
      | |- context [bind (Early.option_isdefault exec option) _ ?s0] =>
        destruct (run_option_isdefault option s0) as (rows' & n' & Ed) end.
      erewrite bind_ok by exact Ed. cbn [ran conn]. fold i.
      destruct (early_isdefault option i) eqn:Hd; cbn [negb]; cbv iota.
      * finish_run.
      * match goal with
        | |- context [bind (Early.option_get_default_value exec option) _ ?s0] =>
          destruct (run_option_get_default_value option s0) as (rows2 & n2 & Eg) end.
        cbn [ran conn] in Eg. fold i in Eg.
        destruct (has_row_first _ _ Hr) as [r Hfr]. rewrite Hfr in Eg |- *.
        erewrite bind_ok by exact Eg. cbn [py_str].
        erewrite bind_ok by
          (apply (run_execute_alter _ option (Some (pg_boot_val r)));
           [reflexivity | exact Hc]).
        finish_run.
    + destruct (String.eqb state "present").
      * unfold Early.option_set.
        erewrite bind_ok by (apply run_option_matches; exact Hr).
        cbn [ran conn truthy]. fold i.
        destruct (matches option value i); cbn [negb]; cbv iota.
        -- finish_run.
        -- erewrite bind_ok by
             (apply (run_execute_alter _ option (Some value));
              [reflexivity | exact Hc]).
           finish_run.
      * finish_run.
Qed.

End PgEarlyMain.

Section PgEarlyRuns.

Import Pg.
Implicit Types (s : Session Instance) (i : Instance).

Variable connect : gmap string string -> option string.

(** [Early.main] on the catalog model. *)
Lemma early_main_pg module i :
  connect (connect_kwargs (params module)) = None ->
  let r := Early.main exec true connect module i in
  exits_with r (exit_json (early_changed module i) (params module !!! "option")) /\
  writes (statements r.2) = early_writes module i /\
  warnings r.2 = early_warnings module i /\
  conn r.2 = early_after module i.
Proof.
  intros Hconn r. subst r.
  unfold Early.main, exits_with. rewrite Hconn. cbn [negb].
  unfold bind, try_except.
  destruct (early_reconcile_run module (open_cursor i))
    as (s' & l & E & Hst & Hw & Hwarn & Hcn).
  cbn [conn open_cursor statements warnings] in *.
  rewrite E. cbn [app] in Hst, Hwarn. unfold early_changed in *.
  destruct (early_guard (params module !!! "option") i);
    destruct (check_mode module); cbn [andb fst snd module_exit raise];
    rewrite Hst, Hw, Hwarn, Hcn; auto.
Qed.

(** With one row per name, "has a row and none of them internal" is
    "has a row that is not internal". *)
Lemma guard_unique (l : list Setting) n :
  NoDup (List.map pg_name l) ->
  negb (existsb (fun r => internal r && named n r) l) && existsb (named n) l
  = existsb (fun r => negb (internal r) && named n r) l.
Proof.
  induction l as [|r l IH]; intros Hnd; [reflexivity|].
  cbn [List.map] in Hnd. inversion Hnd as [|x xs Hnotin Hnd']; subst.
  cbn [existsb]. destruct (named n r) eqn:Hn.
  - assert (Hrest : forall f, existsb (fun r' => f r' && named n r') l = false).
    { intros f. apply not_true_is_false. intros H.
      apply existsb_exists in H as (r' & Hin & H).
      apply andb_prop in H as [_ Hn']. unfold named in Hn, Hn'.
      apply String.eqb_eq in Hn, Hn'. apply Hnotin.
      rewrite Hn, <- Hn'. apply list_elem_of_In, in_map. exact Hin. }
    rewrite !Hrest. rewrite !andb_true_r, !orb_false_r. reflexivity.
  - rewrite !andb_false_r. cbn [orb]. apply IH. exact Hnd'.
Qed.

Lemma early_guard_unique n i :
  NoDup (List.map pg_name (pg_settings i)) ->
  early_guard n i = can_change n i.
Proof. apply guard_unique. Qed.

End PgEarlyRuns.

Section ServedEarly.

Import Pg.
Implicit Types (s : Session Instance) (i : Instance).

Variable write : Query -> Instance -> Reply * Instance.

(** The reads of the early variant do not reach [write]. *)
Lemma served_option_ispreset option :
  Early.option_ispreset (serve write) option = Early.option_ispreset exec option.
Proof. reflexivity. Qed.

Lemma served_option_exists option :
  Early.option_exists (serve write) option = Early.option_exists exec option.
Proof. reflexivity. Qed.

Lemma served_option_isdefault option :
  Early.option_isdefault (serve write) option =
  Early.option_isdefault exec option.
Proof. reflexivity. Qed.

Lemma served_option_get_default_value option :
  Early.option_get_default_value (serve write) option =
  Early.option_get_default_value exec option.
Proof. reflexivity. Qed.

Lemma served_option_matches option value :
  Early.option_matches (serve write) option value =
  Early.option_matches exec option value.
Proof. reflexivity. Qed.

Lemma served_option_reset option s r :
  first_row option (conn s) = Some r ->
  let w := Q_option_reset option (pg_boot_val r) in
  exists s',
    Early.option_reset (serve write) option s =
      ((if unchanged r then Ok false
        else write_result (write w (conn s)).1), s') /\
    statements s' =
      (statements s ++
       Q_option_isdefault option ::
       if unchanged r then []
       else [Q_option_get_default_value option; w])%list /\
    warnings s' = warnings s /\
    conn s' = (if unchanged r then conn s else (write w (conn s)).2).
Proof.
  intros Hr w. subst w. unfold Early.option_reset.
  rewrite served_option_isdefault, served_option_get_default_value.
  destruct (run_option_isdefault option s) as (rows & n & Ed).
  erewrite bind_ok by exact Ed.
  unfold early_isdefault. rewrite Hr.
  destruct (unchanged r); cbn [negb]; cbv iota.
  - eexists. split; [reflexivity|]. cbn. auto.
  - destruct (run_option_get_default_value option
                (ran s (conn s) (Q_option_isdefault option) rows n))
      as (rows' & n' & Eg).
    cbn [ran conn] in Eg. rewrite Hr in Eg.
    erewrite bind_ok by exact Eg. cbn [py_str].
    destruct (run_write write (Q_option_reset option (pg_boot_val r))
                (ran (ran s (conn s) (Q_option_isdefault option) rows n)
                   (conn s) (Q_option_get_default_value option) rows' n')
                eq_refl)
      as (s' & E & Hst & Hw & Hcn).
    exists s'. split; [exact E|]. cbn in Hst, Hw, Hcn.
    rewrite Hst, <- !app_assoc. auto.
Qed.

Lemma served_option_set option value s :
  has_row option (conn s) = true ->
  let w := Q_option_set option value in
  exists s',
    Early.option_set (serve write) option value s =
      ((if matches option value (conn s) then Ok false
        else write_result (write w (conn s)).1), s') /\
    statements s' =
      (statements s ++
       Q_option_matches option value ::
       if matches option value (conn s) then [] else [w])%list /\
    warnings s' = warnings s /\
    conn s' = (if matches option value (conn s) then conn s
               else (write w (conn s)).2).
Proof.
  intros Hr w. subst w. unfold Early.option_set.
  rewrite served_option_matches.
  erewrite bind_ok by (apply run_option_matches; exact Hr).
  cbn [truthy]. destruct (matches option value (conn s)); cbn [negb]; cbv iota.
  - eexists. split; [reflexivity|]. cbn. auto.
  - destruct (run_write write (Q_option_set option value)
                (ran s (conn s) (Q_option_matches option value) (Some []) 1)
                eq_refl)
      as (s' & E & Hst & Hw & Hcn).
    exists s'. split; [exact E|]. cbn in Hst, Hw, Hcn.
    rewrite Hst, <- !app_assoc. auto.
Qed.

Ltac finish_served :=
  rewrite ?andb_false_r; eexists; (split; [reflexivity|]); cbn;
  rewrite <- ?app_assoc, ?app_nil_r; cbn; auto.

(** What the body of the early [main] returns or raises. *)
Lemma early_reconcile_served module s :
  let option := params module !!! "option" in
  let i := conn s in
  exists s',
    Early.reconcile (serve write) module s =
      ((if early_guard option i && check_mode module
        then Raise (SystemExit (exit_json (early_changed module i) option))
        else match early_writes module i with
             | [] => Ok (early_changed module i)
             | w :: _ => write_result (write w i).1
             end), s') /\
    statements s' = (statements s ++ early_log module i)%list /\
    warnings s' = (warnings s ++ early_warnings module i)%list /\
    conn s' = early_served_after write module i.
Proof.
  intros option i.
  unfold early_served_after, early_log, early_writes, early_warnings,
    early_changed, early_check, early_fetch.
  fold option. fold i.
  set (value := params module !!! "value").
  set (state := params module !!! "state").
  unfold Early.reconcile. fold option value state.
  rewrite served_option_ispreset, served_option_exists.
  erewrite bind_ok by apply run_option_ispreset.
  unfold early_guard. fold i.
  destruct (is_preset option i) eqn:Hp; cbn [truthy negb andb]; cbv iota.
  { finish_served. }
  destruct (run_option_exists option
              (ran s (conn s) (Q_option_ispreset option) (Some []) 1))
    as (rows & n & Ex).
  erewrite bind_ok by exact Ex. cbn [ran conn]. fold i.
  destruct (has_row option i) eqn:Hr; cbv iota.
  2:{ finish_served. }
  unfold early_decision, early_write.
  destruct (check_mode module); cbn [negb andb].
  - rewrite served_option_isdefault, served_option_matches.
    destruct (String.eqb state "absent").
    + unfold bind at 1. unfold bind at 1.
      match goal with
      | |- context [bind (Early.option_isdefault exec option) _ ?s0] =>
        destruct (run_option_isdefault option s0) as (rows' & n' & Ed) end.
      erewrite bind_ok by exact Ed. cbn [ran conn]. fold i.
      finish_served.
    + destruct (String.eqb state "present").
      * unfold bind at 1. unfold bind at 1.
        erewrite bind_ok by (apply run_option_matches; exact Hr).
        cbn [ran conn]. fold i.
        finish_served.
      * finish_served.
  - erewrite bind_ok by reflexivity.
    destruct (String.eqb state "absent").
    + destruct (has_row_first _ _ Hr) as [r Hfr].
      destruct (served_option_reset option
                  (ran (ran s (conn s) (Q_option_ispreset option) (Some []) 1)
                     i (Q_option_exists option) rows n) r Hfr)
        as (s' & E & Hst & Hw & Hcn).
      cbn [ran conn statements warnings] in E, Hst, Hw, Hcn. fold i in E, Hcn.
      exists s'. rewrite E, Hst, Hw, Hcn.
      unfold early_isdefault. rewrite Hfr.
      destruct (unchanged r); cbn; rewrite <- ?app_assoc, ?app_nil_r; cbn;
        auto.
    + destruct (String.eqb state "present").
      * destruct (served_option_set option value
                    (ran (ran s (conn s) (Q_option_ispreset option) (Some []) 1)
                       i (Q_option_exists option) rows n) Hr)
          as (s' & E & Hst & Hw & Hcn).
        cbn [ran conn statements warnings] in E, Hst, Hw, Hcn.
        fold i in E, Hst, Hcn.
        exists s'. rewrite E, Hst, Hw, Hcn.
        destruct (matches option value i); cbn;
          rewrite <- ?app_assoc, ?app_nil_r; cbn; auto.
      * finish_served.
Qed.

Variable connect : gmap string string -> option string.

(** [Early.main] on the catalog model, the server deciding on the write. *)
Lemma early_main_served module i :
  connect (connect_kwargs (params module)) = None ->
  let r := Early.main (serve write) true connect module i in
  exits_with r (early_served_exit write module i) /\
  statements r.2 = early_log module i /\
  warnings r.2 = early_warnings module i /\
  conn r.2 = early_served_after write module i.
Proof.
  intros Hconn r. subst r.
  unfold Early.main, exits_with. rewrite Hconn. cbn [negb].
  destruct (early_reconcile_served module (open_cursor i))
    as (s' & E & Hst & Hw & Hcn).
  cbn [conn open_cursor statements warnings] in E, Hst, Hw, Hcn.
  unfold bind, try_except. rewrite E.
  unfold early_served_exit, exit_after_write.
  unfold early_writes in *.
  destruct (early_guard (params module !!! "option") i) eqn:Hg;
    destruct (check_mode module);
    unfold early_changed in *; rewrite ?Hg in *; cbn [andb negb] in *.
  - destruct (early_decision _ _ _ i); cbn; auto.
  - destruct (early_decision _ _ _ i); cbn [andb].
    + destruct (write _ i) as [[msg|rows|] d]; cbn; auto.
    + cbn. auto.
  - cbn. auto.
  - cbn. auto.
Qed.

End ServedEarly.

Section ServedEarlyFacts.

Import Pg.

Lemma writes_early_check state option value :
  writes (early_check state option value) = [].
Proof.
  unfold early_check.
  destruct (String.eqb state "absent"); [reflexivity|].
  destruct (String.eqb state "present"); reflexivity.
Qed.

Lemma writes_early_fetch state option : writes (early_fetch state option) = [].
Proof. unfold early_fetch. destruct (String.eqb state "absent"); reflexivity. Qed.

Lemma writes_early_writes module i :
  writes (early_writes module i) = early_writes module i.
Proof.
  unfold early_writes, early_write.
  destruct (_ && _); [|reflexivity].
  destruct (String.eqb _ "absent"); reflexivity.
Qed.

Lemma writes_app (l1 l2 : list Query) :
  writes (l1 ++ l2) = (writes l1 ++ writes l2)%list.
Proof. apply List.filter_app. Qed.

Lemma writes_early_log module i :
  writes (early_log module i) = early_writes module i.
Proof.
  unfold early_log. cbv zeta.
  change (writes (?q :: ?l)) with (if is_write q then q :: writes l else writes l).
  cbn [is_write].
  destruct (is_preset (params module !!! "option") i) eqn:Hp.
  { unfold early_writes, early_changed, early_guard. rewrite Hp.
    cbn. rewrite andb_false_r. reflexivity. }
  change (writes (?q :: ?l)) with (if is_write q then q :: writes l else writes l).
  cbn [is_write].
  destruct (has_row (params module !!! "option") i) eqn:Hr.
  2:{ unfold early_writes, early_changed, early_guard. rewrite Hp, Hr.
      cbn. rewrite andb_false_r. reflexivity. }
  rewrite writes_app, writes_early_check. cbn [app].
  destruct (early_writes module i) as [|w ws] eqn:E; [reflexivity|].
  rewrite writes_app, writes_early_fetch. cbn [app].
  rewrite <- E. apply writes_early_writes.
Qed.

End ServedEarlyFacts.

Section NoRowFacts.

Import Pg.

Lemma has_row_no_row i n : NoRow i n -> has_row n i = false.
Proof.
  intros H. apply not_true_is_false. intros Hr.
  apply has_row_first in Hr as [x Hx]. apply first_row_none in H. congruence.
Qed.

Lemma is_preset_no_row i n : NoRow i n -> is_preset n i = false.
Proof.
  intros H. apply not_true_is_false. intros Hp.
  unfold is_preset, exists_row in Hp.
  apply existsb_exists in Hp as (x & Hin & Hx).
  apply andb_prop in Hx as [_ Hx]. unfold named in Hx.
  apply String.eqb_eq in Hx. exact (H x Hin Hx).
Qed.

Lemma can_change_no_row i n : NoRow i n -> can_change n i = false.
Proof.
  intros H. apply can_change_false. intros r Hin Hn. destruct (H r Hin Hn).
Qed.

End NoRowFacts.

(** C9. Guard equivalence across variants.  When names are unique in the
    catalog and the name given holds no single quote, [not option_ispreset
    and option_exists] of the early variant has the value of
    [is_guc_configurable] of the modern one, and the two [main]s warn, and
    skip the write, for the same names.  On a name that holds a quote they
    part: the early [main] sends a text with a quote left open and ends in
    [fail_json] without a warning, the modern one binds the name, finds no
    row and warns. *)
Theorem guard_equivalence :
  (forall (write : Query -> Pg.Instance -> Reply * Pg.Instance)
          (connect : gmap string string -> option string)
          (module : AnsibleModule) (i : Pg.Instance),
     connect (connect_kwargs (params module)) = None ->
     params module !!! "option" = params module !!! "guc" ->
     NoDup (List.map Pg.pg_name (Pg.pg_settings i)) ->
     Lexing.no_squote (params module !!! "guc") = true ->
     Lexing.no_squote (params module !!! "value") = true ->
     let name := params module !!! "guc" in
     let early := Early.main (Pg.serve write) true connect module i in
     let modern := Modern.main (Pg.serve write) true connect module i in
     (exists p e c : bool,
        returns (Early.option_ispreset Pg.exec name) (open_cursor i)
          (VBool p) [] /\
        returns (Early.option_exists Pg.exec name) (open_cursor i) e [] /\
        returns (Modern.is_guc_configurable Pg.exec name) (open_cursor i)
          (VBool c) [] /\
        negb p && e = c) /\
     (warnings early.2 = [] <-> warnings modern.2 = []) /\
     (warnings modern.2 <> [] ->
      exits_with early (exit_json false name) /\
      exits_with modern (exit_json false name) /\
      writes (statements early.2) = [] /\
      writes (statements modern.2) = [])) /\
  (forall (db : Type) (exec : Query -> db -> Reply * db)
          (connect : gmap string string -> option string)
          (module : AnsibleModule) (d : db),
     rejects_open_quotes exec ->
     connect (connect_kwargs (params module)) = None ->
     params module !!! "option" = demo_quoted_name ->
     let early := Early.main exec true connect module d in
     (exists msg,
        exits_with early (fail_json ("Database query failed: " ++ msg))) /\
     warnings early.2 = [] /\
     statements early.2 = [Q_option_ispreset demo_quoted_name]) /\
  (forall (write : Query -> Pg.Instance -> Reply * Pg.Instance)
          (connect : gmap string string -> option string)
          (module : AnsibleModule) (i : Pg.Instance),
     connect (connect_kwargs (params module)) = None ->
     params module !!! "guc" = demo_quoted_name ->
     Pg.NoRow i demo_quoted_name ->
     let modern := Modern.main (Pg.serve write) true connect module i in
     exits_with modern (exit_json false demo_quoted_name) /\
     warnings modern.2 = [modern_warning demo_quoted_name] /\
     statements modern.2 = [Q_is_guc_configurable demo_quoted_name]).
Proof.
  split; [|split].
  - intros write connect module i Hconn Hname Hnd _ _ name early modern.
    pose proof (early_guard_unique name i Hnd) as Hg.
    destruct (early_main_served write connect module i Hconn)
      as (Ee & Le & Wne & _).
    destruct (modern_main_served write connect module i Hconn)
      as (Em & Lm & Wnm & _).
    fold early in Ee, Le, Wne. fold modern in Em, Lm, Wnm.
    unfold early_warnings in Wne. unfold modern_warnings in Wnm.
    rewrite Hname in Wne. fold name in Wne, Wnm.
    split; [|split].
    + exists (Pg.is_preset name i), (Pg.has_row name i), (Pg.can_change name i).
      repeat split; [ | | | exact Hg].
      * eapply returns_of_run;
          [apply run_option_ispreset | reflexivity | reflexivity].
      * destruct (run_option_exists name (open_cursor i)) as (rows & n & E).
        eapply returns_of_run; [exact E | reflexivity | reflexivity].
      * eapply returns_of_run;
          [apply run_is_guc_configurable | reflexivity | reflexivity].
    + rewrite Wne, Wnm. rewrite <- Hg. unfold early_guard.
      destruct (Pg.is_preset name i), (Pg.has_row name i); cbn; split;
        intros H; try discriminate H; reflexivity.
    + intros Hw. rewrite Wnm in Hw.
      destruct (Pg.can_change name i) eqn:Hc; [destruct Hw; reflexivity|].
      rewrite Le, Lm. rewrite writes_early_log, writes_modern_log.
      unfold early_served_exit in Ee. unfold modern_served_exit in Em.
      unfold early_writes, early_changed in *.
      unfold modern_writes, modern_changed in *.
      rewrite Hname in Ee |- *. fold name in Ee, Em |- *.
      rewrite Hg in Ee |- *. rewrite Hc in Em |- *.
      cbn [andb] in Ee, Em |- *. rewrite andb_false_r in Ee, Em.
      rewrite !andb_false_r. auto.
  - intros db exec connect module d Hrej Hconn Hname.
    apply early_main_open_quote; assumption.
  - intros write connect module i Hconn Hname Hno modern.
    destruct (modern_main_served write connect module i Hconn)
      as (Em & Lm & Wnm & _).
    fold modern in Em, Lm, Wnm.
    pose proof (can_change_no_row _ _ Hno) as Hc.
    unfold modern_served_exit, modern_writes, modern_changed in Em.
    unfold modern_log in Lm. unfold modern_warnings in Wnm.
    rewrite Hname in Em, Lm, Wnm. rewrite Hc in Em, Lm, Wnm.
    cbn [andb] in Em. rewrite andb_false_r in Em. auto.
Qed.

Lemma guard_equivalence_witness :
  (warnings
     (Early.main demo_validating true demo_connect demo_set_block_size
        demo_instance).2 = [] <->
   warnings
     (Modern.main demo_validating true demo_connect demo_set_block_size
        demo_instance).2 = []) /\
  (exists msg,
     exits_with
       (Early.main demo_unavailable true demo_connect
          (demo_module demo_quoted_name "" "absent" false) demo_instance)
       (fail_json ("Database query failed: " ++ msg))) /\
  warnings
    (Modern.main demo_validating true demo_connect
       (demo_module demo_quoted_name "" "absent" false) demo_instance).2
  = [modern_warning demo_quoted_name].
Proof.
  assert (Hnd : NoDup (List.map Pg.pg_name (Pg.pg_settings demo_instance))).
  { apply (bool_decide_unpack _). vm_compute. reflexivity. }
  assert (Hno : Pg.NoRow demo_instance demo_quoted_name).
  { apply find_named_none. vm_compute. reflexivity. }
  destruct guard_equivalence as (Hplain & Hearly & Hmodern).
  split; [|split].
  - apply (Hplain demo_validate demo_connect demo_set_block_size demo_instance
             eq_refl eq_refl Hnd eq_refl eq_refl).
  - apply (Hearly _ demo_unavailable demo_connect
             (demo_module demo_quoted_name "" "absent" false) demo_instance
             demo_unavailable_rejects eq_refl eq_refl).
  - apply (Hmodern demo_validate demo_connect
             (demo_module demo_quoted_name "" "absent" false) demo_instance
             eq_refl eq_refl Hno).
Defined.

(** C10. Reset precondition in the early variant.  On a name without a
    row that holds no single quote, [option_isdefault] returns false,
    [option_get_default_value] then fetches no row and its subscript
    raises [TypeError], and [option_reset] raises it before any write is
    sent.  [main] asks [option_exists] first: such a name ends with the
    "does not exist" warning after the two guard statements, and
    [option_get_default_value] is reached only for a name that has a row,
    whose boot value it then returns.  On a name that holds a quote
    [option_reset] raises the server's syntax error instead: the text of
    its first statement leaves a quote open. *)
Theorem reset_precondition :
  (forall (write : Query -> Pg.Instance -> Reply * Pg.Instance)
          (option : string) (s : Session Pg.Instance),
     Lexing.no_squote option = true ->
     Pg.NoRow (conn s) option ->
     returns (Early.option_isdefault Pg.exec option) s false [] /\
     raises (Early.option_get_default_value Pg.exec option) s
       (TypeError "'NoneType' object is not subscriptable") [] /\
     raises (Early.option_reset (Pg.serve write) option) s
       (TypeError "'NoneType' object is not subscriptable") []) /\
  (forall (write : Query -> Pg.Instance -> Reply * Pg.Instance)
          (connect : gmap string string -> option string)
          (module : AnsibleModule) (i : Pg.Instance),
     connect (connect_kwargs (params module)) = None ->
     Lexing.no_squote (params module !!! "option") = true ->
     Lexing.no_squote (params module !!! "value") = true ->
     let option := params module !!! "option" in
     let r := Early.main (Pg.serve write) true connect module i in
     (Pg.NoRow i option ->
      exits_with r (exit_json false option) /\
      warnings r.2 = [early_missing_warning option] /\
      statements r.2 = [Q_option_ispreset option; Q_option_exists option]) /\
     (In (Q_option_get_default_value option) (statements r.2) ->
      exists row,
        Pg.first_row option i = Some row /\
        returns (Early.option_get_default_value Pg.exec option)
          (open_cursor i) (VStr (Pg.pg_boot_val row)) [])) /\
  (forall (db : Type) (exec : Query -> db -> Reply * db) (s : Session db),
     rejects_open_quotes exec ->
     exists msg,
       raises (Early.option_reset exec demo_quoted_name) s
         (DatabaseError msg) []).
Proof.
  split; [|split].
  - intros write option s _ H.
    pose proof (filter_named_nil _ _ H) as Hf.
    split; [apply (option_isdefault_no_row option s H)|]. split.
    + exists (ran s (conn s) (Q_option_get_default_value option) (Some []) 0),
             [Q_option_get_default_value option].
      split; [|split; reflexivity].
      unfold Early.option_get_default_value, bind, execute. cbn [Pg.exec].
      unfold Pg.select_where_name. rewrite Hf. reflexivity.
    + apply first_row_none in H.
      destruct (run_option_isdefault option s) as (rows & n & Ed).
      unfold early_isdefault in Ed. rewrite H in Ed.
      destruct (run_option_get_default_value option
                  (ran s (conn s) (Q_option_isdefault option) rows n))
        as (rows' & n' & Eg).
      cbn [ran conn] in Eg. rewrite H in Eg.
      eexists.
      exists [Q_option_isdefault option; Q_option_get_default_value option].
      split; [|split; [|reflexivity]].
      * unfold Early.option_reset.
        rewrite served_option_isdefault, served_option_get_default_value.
        erewrite bind_ok by exact Ed.
        cbn [negb]. erewrite bind_raise by exact Eg. reflexivity.
      * cbn. rewrite <- app_assoc. reflexivity.
  - intros write connect module i Hconn _ _ option r.
    destruct (early_main_served write connect module i Hconn)
      as (E & L & Wn & _).
    fold r in E, L, Wn. split.
    + intros H.
      pose proof (has_row_no_row _ _ H) as Hr.
      pose proof (is_preset_no_row _ _ H) as Hp.
      unfold early_served_exit, early_writes, early_changed, early_guard in E.
      unfold early_log in L. unfold early_warnings in Wn.
      fold option in E, L, Wn. cbv zeta in L. fold option in L.
      rewrite Hr, Hp in *. cbn [negb andb] in E.
      rewrite andb_false_r in E. auto.
    + rewrite L. unfold early_log. cbv zeta. fold option.
      destruct (Pg.is_preset option i).
      { intros [H | []]. discriminate H. }
      destruct (Pg.has_row option i) eqn:Hr.
      2:{ intros [H | [H | []]]; discriminate H. }
      intros _. destruct (has_row_first _ _ Hr) as [row Hrow].
      exists row. split; [exact Hrow|].
      destruct (run_option_get_default_value option (open_cursor i))
        as (rows & n & Eg).
      cbn [conn open_cursor] in Eg. rewrite Hrow in Eg.
      eapply returns_of_run; [exact Eg | reflexivity | reflexivity].
  - intros db exec s H. apply option_reset_open_quote. exact H.
Qed.

Lemma reset_precondition_witness :
  raises (Early.option_reset demo_validating "no_such_parameter")
    (open_cursor demo_instance)
    (TypeError "'NoneType' object is not subscriptable") [] /\
  warnings
    (Early.main demo_validating true demo_connect demo_reset_unknown
       demo_instance).2
  = [early_missing_warning "no_such_parameter"] /\
  (exists msg,
     raises (Early.option_reset demo_unavailable demo_quoted_name)
       (open_cursor demo_instance) (DatabaseError msg) []).
Proof.
  assert (H : Pg.NoRow (conn (open_cursor demo_instance)) "no_such_parameter").
  { apply find_named_none. vm_compute. reflexivity. }
  destruct reset_precondition as (Hops & Hmain & Hquote).
  split; [|split].
  - apply (Hops demo_validate "no_such_parameter" _ eq_refl H).
  - apply (Hmain demo_validate demo_connect demo_reset_unknown demo_instance
             eq_refl eq_refl eq_refl).
    exact H.
  - apply (Hquote _ demo_unavailable _ demo_unavailable_rejects).
Defined.

(** ** Connection keywords *)

Section ConnectKwargs.

Implicit Types (p : gmap string string) (k v : string).

Lemma params_map_lookup k t :
  params_map !! k = Some t <->
  (k, t) ∈ [("login_host", "host"); ("login_user", "user");
            ("login_password", "password"); ("port", "port")].
Proof.
  unfold params_map. symmetry. apply elem_of_list_to_map.
  apply (bool_decide_unpack _). vm_compute. reflexivity.
Qed.

(** Distinct options go to distinct keywords. *)
Lemma params_map_inj k1 k2 t :
  params_map !! k1 = Some t -> params_map !! k2 = Some t -> k1 = k2.
Proof.
  rewrite !params_map_lookup, !elem_of_cons, !elem_of_nil.
  intros H1 H2.
  repeat match goal with
         | H : _ \/ _ |- _ => destruct H
         | H : False |- _ => destruct H
         end;
    congruence.
Qed.

Lemma kw_pair_some (kv : string * string) k' v :
  kw_pair kv = Some (k', v) <->
  params_map !! kv.1 = Some k' /\ kv.2 = v /\ v <> "".
Proof.
  unfold kw_pair. destruct (params_map !! kv.1) as [t|].
  - destruct (String.eqb kv.2 "") eqn:E.
    + apply String.eqb_eq in E. split; [discriminate|].
      intros (_ & <- & H). contradiction.
    + apply String.eqb_neq in E. split.
      * intros [= <- <-]. auto.
      * intros ([= <-] & <- & _). reflexivity.
  - split; [discriminate | intros ([=] & _)].
Qed.

Lemma NoDup_kw_keys (l : list (string * string)) :
  NoDup l.*1 -> NoDup (omap kw_pair l).*1.
Proof.
  induction l as [|[k v] l IH]; intros Hnd; [constructor|].
  cbn [fmap list_fmap] in Hnd. apply NoDup_cons in Hnd as [Hk Hnd].
  cbn [omap list_omap]. destruct (kw_pair (k, v)) as [[k' v']|] eqn:E; [|auto].
  cbn [fmap list_fmap]. apply NoDup_cons. split; [|auto].
  intros Hin. apply list_elem_of_fmap in Hin as ([k2' v2] & Hfst & Hin).
  cbn in Hfst. subst k2'.
  apply list_elem_of_omap in Hin as ([k2 w2] & Hin2 & E2).
  apply kw_pair_some in E as (E & _). apply kw_pair_some in E2 as (E2 & _).
  cbn in E, E2. rewrite (params_map_inj _ _ _ E E2) in Hk.
  apply Hk. apply list_elem_of_fmap. exists (k2, w2). auto.
Qed.

(** The keywords: each connection option that is not empty, under the
    name [params_map] gives it. *)
Lemma kw_of_params_lookup p k' v :
  kw_of_params p !! k' = Some v <->
  exists k, params_map !! k = Some k' /\ p !! k = Some v /\ v <> "".
Proof.
  unfold kw_of_params. rewrite <- elem_of_list_to_map.
  - rewrite elem_of_reverse, list_elem_of_omap. split.
    + intros ([k w] & Hin & E). apply elem_of_map_to_list in Hin.
      apply kw_pair_some in E as (E & Hw & Hne). cbn in E, Hw. subst w.
      exists k. auto.
    + intros (k & E & Hp & Hne). exists (k, v). split.
      * apply elem_of_map_to_list. exact Hp.
      * apply kw_pair_some. auto.
  - rewrite fmap_reverse, reverse_Permutation. apply NoDup_kw_keys.
    apply NoDup_fst_map_to_list.
Qed.

Lemma kw_of_params_host p :
  kw_of_params p !! "host" =
  if String.eqb (p !!! "login_host") "" then None
  else Some (p !!! "login_host").
Proof.
  rewrite lookup_total_alt.
  destruct (kw_of_params p !! "host") as [h|] eqn:E.
  - apply kw_of_params_lookup in E as (k & Hk & Hp & Hne).
    assert (k = "login_host") as -> by (apply (params_map_inj _ _ _ Hk); reflexivity).
    rewrite Hp. cbn. apply String.eqb_neq in Hne. rewrite Hne.
    reflexivity.
  - destruct (p !! "login_host") as [h|] eqn:Hp; cbn; [|reflexivity].
    destruct (String.eqb h "") eqn:Hh; [reflexivity|].
    apply String.eqb_neq in Hh.
    assert (Hsome : kw_of_params p !! "host" = Some h).
    { apply kw_of_params_lookup. exists "login_host". auto. }
    congruence.
Qed.

(** [login_unix_socket] is not one of the options that become keywords. *)
Lemma kw_of_params_ignores_socket p x :
  kw_of_params (<["login_unix_socket" := x]> p) = kw_of_params p.
Proof.
  apply map_eq. intros k'. apply option_eq. intros v.
  rewrite !kw_of_params_lookup.
  split; intros (k & Hk & Hp & Hne); exists k; (split; [exact Hk|]);
    (split; [|exact Hne]);
    assert (Hneq : "login_unix_socket" <> k)
      by (intros <-; vm_compute in Hk; discriminate Hk).
  - rewrite lookup_insert_ne in Hp by exact Hneq. exact Hp.
  - rewrite lookup_insert_ne by exact Hneq. exact Hp.
Qed.

Lemma is_localhost_spec p :
  is_localhost (kw_of_params p) =
  String.eqb (p !!! "login_host") "" || String.eqb (p !!! "login_host") "localhost".
Proof.
  unfold is_localhost. rewrite kw_of_params_host.
  destruct (String.eqb (p !!! "login_host") "") eqn:E; [reflexivity|].
  rewrite E. reflexivity.
Qed.

End ConnectKwargs.

(** C8. Unix-socket host substitution: the socket path is the effective
    host when the host given is empty or ["localhost"] and the socket path
    is not empty; in every other case the keywords are those of the
    connection options alone, with the host given, or no host keyword (the
    default of the library) when it is empty; and the keywords of the
    connection options do not depend on the socket path. *)
Theorem unix_socket_host_substitution :
  forall p : gmap string string,
    let host := p !!! "login_host" in
    let socket := p !!! "login_unix_socket" in
    ((host = "" \/ host = "localhost") /\ socket <> "" ->
     connect_kwargs p !! "host" = Some socket) /\
    (~ ((host = "" \/ host = "localhost") /\ socket <> "") ->
     connect_kwargs p = kw_of_params p /\
     connect_kwargs p !! "host" =
       if String.eqb host "" then None else Some host) /\
    (forall x, kw_of_params (<["login_unix_socket" := x]> p) = kw_of_params p).
Proof.
  intros p host socket.
  split; [|split; [|intros x; apply kw_of_params_ignores_socket]];
    unfold connect_kwargs; rewrite is_localhost_spec; fold host socket.
  - intros [Hh Hs]. apply String.eqb_neq in Hs. rewrite Hs.
    assert (Hl : String.eqb host "" || String.eqb host "localhost" = true).
    { destruct Hh as [-> | ->]; reflexivity. }
    rewrite Hl. cbn [andb negb]. apply lookup_insert_eq.
  - intros Hn.
    assert (Hc : (String.eqb host "" || String.eqb host "localhost")
                 && negb (String.eqb socket "") = false).
    { apply not_true_is_false. intros H. apply Hn.
      apply andb_prop in H as [Hl Hs]. split.
      - apply orb_prop in Hl as [Hl|Hl]; apply String.eqb_eq in Hl; auto.
      - apply negb_true_iff, String.eqb_neq in Hs. exact Hs. }
    rewrite Hc. split; [reflexivity|]. apply kw_of_params_host.
Qed.

Lemma unix_socket_host_substitution_witness :
  connect_kwargs demo_socket_params !! "host" = Some "/var/run/postgresql".
Proof.
  apply (proj1 (unix_socket_host_substitution demo_socket_params)).
  split; [right; reflexivity | discriminate].
Defined.

(** ** The texts of the statements *)

Section Texts.

Import Lexing.

Lemma append_nil_l (s : string) : "" ++ s = s.
Proof. reflexivity. Qed.

Lemma append_cons c (s1 s2 : string) : String c s1 ++ s2 = String c (s1 ++ s2).
Proof. reflexivity. Qed.

Lemma run_app m s1 s2 :
  run m (s1 ++ s2) =
  let (o1, m1) := run m s1 in
  let (o2, m2) := run m1 s2 in ((o1 ++ o2)%list, m2).
Proof.
  revert m. induction s1 as [|c s1 IH]; intros m.
  - rewrite append_nil_l. cbn [run]. destruct (run m s2). reflexivity.
  - rewrite append_cons. cbn [run]. destruct (step m c) as [o m']. rewrite IH.
    destruct (run m' s1) as [o1 m1]. destruct (run m1 s2) as [o2 m2].
    rewrite app_assoc. reflexivity.
Qed.

Lemma snoc_append acc c s : snoc acc c ++ s = acc ++ String c s.
Proof.
  unfold snoc. induction acc as [|a acc IH]; [reflexivity|].
  rewrite !append_cons, IH. reflexivity.
Qed.

Lemma append_empty_r (s : string) : s ++ "" = s.
Proof.
  induction s as [|c s IH]; [reflexivity|]. rewrite append_cons, IH. reflexivity.
Qed.

(** Inside a quoted identifier the doubled quotes are read back as one:
    the lexer stays in the identifier and collects the name as given. *)
Lemma run_ident_body acc s :
  run (InIdent acc) (sql.double_char sql.dquote s) = ([], InIdent (acc ++ s)).
Proof.
  revert acc. induction s as [|c s IH]; intros acc.
  - cbn [sql.double_char run]. rewrite append_empty_r. reflexivity.
  - cbn [sql.double_char]. destruct (Ascii.eqb c sql.dquote) eqn:E.
    + apply Ascii.eqb_eq in E. subst c.
      cbn [run step]. rewrite Ascii.eqb_refl. cbn [run step].
      rewrite Ascii.eqb_refl. rewrite IH, snoc_append. reflexivity.
    + cbn [run step]. rewrite E. rewrite IH, snoc_append. reflexivity.
Qed.

(** A quoted identifier followed by [rest]. *)
Lemma run_quote_ident s rest :
  run Idle (sql.quote_ident s ++ rest) =
  let (o, m) := run (IdentQuote s) rest in (o, m).
Proof.
  unfold sql.quote_ident. rewrite append_cons. cbn [run].
  change (step Idle sql.dquote) with (@nil Token, InIdent "").
  cbv beta iota.
  rewrite !run_app, run_ident_body, append_nil_l.
  cbn [run step]. rewrite Ascii.eqb_refl.
  destruct (run (IdentQuote s) rest). reflexivity.
Qed.

Lemma text_do_guc_reset guc :
  sql_text (Q_do_guc_reset guc) = "ALTER SYSTEM RESET " ++ (sql.quote_ident guc ++ "").
Proof. reflexivity. Qed.

Lemma text_do_guc_set guc value :
  sql_text (Q_do_guc_set guc value) =
  "ALTER SYSTEM SET " ++ (sql.quote_ident guc ++ " TO %s").
Proof. reflexivity. Qed.

Lemma lex_do_guc_reset guc :
  lex (sql_text (Q_do_guc_reset guc)) =
  Some [T_word "ALTER"; T_word "SYSTEM"; T_word "RESET"; T_ident guc].
Proof.
  rewrite text_do_guc_reset. unfold lex.
  rewrite run_app.
  change (run Idle "ALTER SYSTEM RESET ")
    with ([T_word "ALTER"; T_word "SYSTEM"; T_word "RESET"], Idle).
  cbv beta iota. rewrite run_quote_ident. reflexivity.
Qed.

Lemma lex_do_guc_set guc value :
  lex (sql_text (Q_do_guc_set guc value)) =
  Some [T_word "ALTER"; T_word "SYSTEM"; T_word "SET"; T_ident guc;
        T_word "TO"; T_param].
Proof.
  rewrite text_do_guc_set. unfold lex.
  rewrite run_app.
  change (run Idle "ALTER SYSTEM SET ")
    with ([T_word "ALTER"; T_word "SYSTEM"; T_word "SET"], Idle).
  cbv beta iota. rewrite run_quote_ident. reflexivity.
Qed.

(** The statements of the modern variant: whatever the name and the
    value, the text read by a server has one fixed shape per call site;
    the name is only ever the content of a quoted identifier, and the
    value is not in the text at all. *)
Lemma modern_structure_fixed q1 q2 :
  is_modern q1 = true -> same_site q1 q2 = true ->
  structure q1 = structure q2 /\ structure q1 <> None.
Proof.
  intros Hm Hs.
  destruct q1; try discriminate Hm; destruct q2; try discriminate Hs;
    unfold structure;
    rewrite ?lex_do_guc_reset, ?lex_do_guc_set;
    (split; [reflexivity | vm_compute; discriminate]).
Qed.

(** *** The early texts on plain inputs *)







End Texts.

(** The statements [option_set] executes, whatever the server answers:
    the check, and after it at most the write. *)
Lemma early_option_set_statements {db : Type}
    (exec : Query -> db -> Reply * db) (option value : string)
    (s : Session db) :
  statements (Early.option_set exec option value s).2 =
    (statements s ++ [Q_option_matches option value])%list \/
  statements (Early.option_set exec option value s).2 =
    (statements s ++ [Q_option_matches option value;
                      Q_option_set option value])%list.
Proof.
  unfold Early.option_set, Early.option_matches, bind, execute, fetchone.
  destruct (exec (Q_option_matches option value) (conn s)) as [[msg|rows|] d];
    cbn; auto.
  destruct rows as [|[|v r] rows]; cbn; auto.
  destruct (truthy v); cbn; auto.
  right.
  destruct (exec (Q_option_set option value) d) as [[msg|rows'|] d'];
    cbn; rewrite <- ?app_assoc; reflexivity.
Qed.

(** C7. The early variant breaks parameter binding: [option_set] formats
    the name and the value into its texts with [%] and passes no bound
    argument.  For the value below, which holds a quote, the text of the
    check already carries a second statement, and the text of the write
    reads as two [ALTER SYSTEM] statements; neither has the shape of the
    statement sent for an ordinary value. *)
Theorem early_option_set_splices_value :
  (forall (db : Type) (exec : Query -> db -> Reply * db) (s : Session db),
     statements (Early.option_set exec "work_mem" demo_injection s).2 =
       (statements s ++ [Q_option_matches "work_mem" demo_injection])%list \/
     statements (Early.option_set exec "work_mem" demo_injection s).2 =
       (statements s ++ [Q_option_matches "work_mem" demo_injection;
                         Q_option_set "work_mem" demo_injection])%list) /\
  sql_text (Q_option_matches "work_mem" demo_injection) =
    "SELECT current_setting('work_mem') = 'off'; ALTER SYSTEM SET fsync TO 'off'" /\
  sql_args (Q_option_matches "work_mem" demo_injection) = [] /\
  sql_text (Q_option_set "work_mem" demo_injection) =
    "ALTER SYSTEM SET work_mem TO 'off'; ALTER SYSTEM SET fsync TO 'off'" /\
  sql_args (Q_option_set "work_mem" demo_injection) = [] /\
  Lexing.lex (sql_text (Q_option_set "work_mem" demo_injection)) =
    Some [Lexing.T_word "ALTER"; Lexing.T_word "SYSTEM"; Lexing.T_word "SET";
          Lexing.T_word "work_mem"; Lexing.T_word "TO"; Lexing.T_literal "off";
          Lexing.T_symbol ";";
          Lexing.T_word "ALTER"; Lexing.T_word "SYSTEM"; Lexing.T_word "SET";
          Lexing.T_word "fsync"; Lexing.T_word "TO"; Lexing.T_literal "off"] /\
  Lexing.structure (Q_option_matches "work_mem" demo_injection) <>
  Lexing.structure (Q_option_matches "work_mem" "8MB") /\
  Lexing.structure (Q_option_set "work_mem" demo_injection) <>
  Lexing.structure (Q_option_set "work_mem" "8MB").
Proof.
  split; [intros db exec s; apply early_option_set_statements|].
  repeat split; try reflexivity.
  - vm_compute. discriminate.
  - vm_compute. discriminate.
Qed.

(** * Further properties *)

(** ** Runs against an arbitrary server *)

Section AnyServer.

Context {db : Type}.
Variable exec : Query -> db -> Reply * db.
Variable connect : gmap string string -> option string.

Lemma wrote_accepted (r : Res unit * Session db) name w d :
  exits_with r (exit_json true name) ->
  (forall m, (exec w d).1 <> QueryFailed m) -> wrote exec r name w.
Proof. intros. exists d. left. auto. Qed.

Lemma wrote_rejected (r : Res unit * Session db) name w d m :
  (exec w d).1 = QueryFailed m ->
  exits_with r (fail_json ("Database query failed: " ++ m)) ->
  wrote exec r name w.
Proof. intros. exists d. right. eauto. Qed.

Lemma rowcount_positive (n : nat) : (0 <? Z.of_nat (S n)) = true.
Proof. apply Z.ltb_lt. lia. Qed.

(** Case analysis, in the equation [H] of a run, on what the server
    answers statement by statement. *)
Ltac by_replies H :=
  repeat (
    match type of H with
    | context [0 <? Z.of_nat (S ?n)] => rewrite (rowcount_positive n) in H
    | context [0 <? Z.of_nat 0] => change (0 <? Z.of_nat 0) with false in H
    | context [exec ?q ?d] =>
        let r := fresh "r" in let d' := fresh "d" in let E := fresh "E" in
        destruct (exec q d) as [r d'] eqn:E; destruct r as [?msg|?rows|]
    | context [match ?rows with [] => _ | _ :: _ => _ end] =>
        is_var rows; destruct rows
    | context [Z.of_nat (length ?rows)] => is_var rows; destruct rows
    | context [truthy ?v] => destruct (truthy v) eqn:?
    | context [py_eq ?a ?b] => destruct (py_eq a b) eqn:?
    end; cbn -[String.eqb append] in H).

Ltac unfold_py H :=
  unfold bind, try_except, execute, fetchone, get_rowcount, getitem, ret,
    module_exit, warn, raise, open_cursor in H.

Ltac case_state module :=
  destruct (check_mode module);
  (destruct (String.eqb (params module !!! "state") "absent") eqn:Habsent;
   [apply String.eqb_eq in Habsent | apply String.eqb_neq in Habsent]);
  (destruct (String.eqb (params module !!! "state") "present") eqn:Hpresent;
   [apply String.eqb_eq in Hpresent | apply String.eqb_neq in Hpresent]).

Ltac close_wrote :=
  match goal with
  | E : exec ?w ?d = (QueryFailed ?m, _) |- wrote _ _ _ ?w =>
      apply (wrote_rejected _ _ w d m); [rewrite E; reflexivity | reflexivity]
  | E : exec ?w ?d = _ |- wrote _ _ _ ?w =>
      apply (wrote_accepted _ _ w d);
      [reflexivity | intros ?; rewrite E; discriminate]
  end.

Ltac close_trace :=
  solve [ repeat first
    [ reflexivity | assumption | discriminate
    | close_wrote
    | match goal with
      | |- query_failed _ => eexists; reflexivity
      | |- reported _ _ _ => eexists; split; [reflexivity | intros; congruence]
      | |- _ /\ _ => split
      | |- exists _, _ => eexists
      | |- _ \/ _ => (left; close_trace) || (right; close_trace)
      end ] ].

(** The traces of the modern [main], whatever the server answers. *)
Lemma modern_main_trace module d :
  connect (connect_kwargs (params module)) = None ->
  modern_trace exec module (Modern.main exec true connect module d).
Proof.
  intros Hc.
  destruct (Modern.main exec true connect module d) as [res s'] eqn:H.
  unfold Modern.main in H. rewrite Hc in H. cbn [negb] in H.
  unfold Modern.reconcile, Modern.do_guc_reset, Modern.do_guc_set,
    Modern.is_guc_configurable, Modern.is_guc_default, Modern.guc_matches in H.
  unfold modern_trace, exits_with, query_failed, reported, exits_with.
  case_state module; unfold_py H; cbn -[String.eqb append] in H; by_replies H;
    injection H as <- <-; cbn -[String.eqb append]; close_trace.
Qed.

(** The traces of the early [main], whatever the server answers. *)
Lemma early_main_trace module d :
  connect (connect_kwargs (params module)) = None ->
  early_trace exec module (Early.main exec true connect module d).
Proof.
  intros Hc.
  destruct (Early.main exec true connect module d) as [res s'] eqn:H.
  unfold Early.main in H. rewrite Hc in H. cbn [negb] in H.
  unfold Early.reconcile, Early.option_reset, Early.option_set,
    Early.option_ispreset, Early.option_exists, Early.option_isdefault,
    Early.option_matches, Early.option_get_default_value in H.
  unfold early_trace, exits_with, query_failed, reported, exits_with.
  case_state module; unfold_py H; cbn -[String.eqb append] in H; by_replies H;
    injection H as <- <-; cbn -[String.eqb append]; close_trace.
Qed.

End AnyServer.

Section AnyRun.

Context {db : Type}.
Variable exec : Query -> db -> Reply * db.
Variable found : bool.
Variable connect : gmap string string -> option string.

(** Either the run was connected, and then its trace is one of the traces
    of the variant, or nothing was executed. *)
Lemma modern_run_cases module d :
  let r := Modern.main exec found connect module d in
  (found = true /\ connect (connect_kwargs (params module)) = None /\
   modern_trace exec module r) \/
  (statements r.2 = [] /\ warnings r.2 = [] /\
   (forall c, ~ exits_with r (exit_json c (params module !!! "guc"))) /\
   ends_as found (connect (connect_kwargs (params module)))
     (params module !!! "guc") r).
Proof.
  intros r. subst r.
  destruct found eqn:Hf;
    [destruct (connect (connect_kwargs (params module))) as [e|] eqn:Hc|].
  - right. unfold Modern.main. rewrite Hc. cbn. repeat split.
    + intros c H. unfold exits_with in H. cbn in H. discriminate H.
    + right. right. left. exists e. repeat split.
  - left. repeat split. apply modern_main_trace. exact Hc.
  - right. unfold Modern.main. cbn. repeat split.
    + intros c H. unfold exits_with in H. cbn in H. discriminate H.
    + right. left. repeat split.
Qed.

Lemma early_run_cases module d :
  let r := Early.main exec found connect module d in
  (found = true /\ connect (connect_kwargs (params module)) = None /\
   early_trace exec module r) \/
  (statements r.2 = [] /\ warnings r.2 = [] /\
   (forall c, ~ exits_with r (exit_json c (params module !!! "option"))) /\
   ends_as found (connect (connect_kwargs (params module)))
     (params module !!! "option") r).
Proof.
  intros r. subst r.
  destruct found eqn:Hf;
    [destruct (connect (connect_kwargs (params module))) as [e|] eqn:Hc|].
  - right. unfold Early.main. rewrite Hc. cbn. repeat split.
    + intros c H. unfold exits_with in H. cbn in H. discriminate H.
    + right. right. left. exists e. repeat split.
  - left. repeat split. apply early_main_trace. exact Hc.
  - right. unfold Early.main. cbn. repeat split.
    + intros c H. unfold exits_with in H. cbn in H. discriminate H.
    + right. left. repeat split.
Qed.

End AnyRun.

(** Splits a trace of either variant into its cases. *)
Ltac trace_cases H :=
  unfold modern_trace, early_trace in H; cbv zeta in H;
  repeat match type of H with
         | _ \/ _ => destruct H as [H|H]
         | _ /\ _ =>
             let H1 := fresh "H" in destruct H as [H1 H];
             try (rewrite H1 in *; clear H1)
         | exists _, _ => let x := fresh "x" in destruct H as [x H]
         end.

Ltac trace_facts :=
  unfold query_failed, reported, wrote, exits_with in *;
  repeat match goal with
         | H : _ \/ _ |- _ => destruct H
         | H : exists _, _ |- _ => destruct H
         | H : _ /\ _ |- _ => destruct H
         end.

Ltac changed_cases :=
  try congruence;
  try match goal with
      | Himp : ?c = true -> _ |- _ =>
          destruct c; [specialize (Himp eq_refl)|]; congruence
      end;
  match goal with
  | Hok : forall m, (_ ?w ?d').1 <> QueryFailed m
    |- exists log w' d'', [?a; ?b; ?w] = _ /\ _ =>
      exists [a; b], w, d'; repeat split; auto
  | Hok : forall m, (_ ?w ?d').1 <> QueryFailed m
    |- exists log w' d'', [?a; ?b; ?c; ?e; ?w] = _ /\ _ =>
      exists [a; b; c; e], w, d'; repeat split; auto
  | Hok : forall m, (_ ?w ?d').1 <> QueryFailed m
    |- exists log w' d'', [?a; ?b; ?c; ?w] = _ /\ _ =>
      exists [a; b; c], w, d'; repeat split; auto
  end.

Section AnyRunProperties.

Context {db : Type}.
Variable exec : Query -> db -> Reply * db.
Variable found : bool.
Variable connect : gmap string string -> option string.

Lemma nonempty_log {A} (x : A) l : x :: l <> [].
Proof. discriminate. Qed.

(** X1. Every run of [main], in both variants and whatever the server
    answers, ends through [exit_json] with the name it was given, or
    through [fail_json] with one of three messages: the missing library or
    the failed connection, and then no statement was executed, or a failed
    query, and then at least one was. *)
Theorem main_ends_in_one_of_four_ways :
  forall (module : AnsibleModule) (d : db),
    ends_as found (connect (connect_kwargs (params module)))
      (params module !!! "guc") (Modern.main exec found connect module d) /\
    ends_as found (connect (connect_kwargs (params module)))
      (params module !!! "option") (Early.main exec found connect module d).
Proof.
  intros module d. split.
  - destruct (modern_run_cases exec found connect module d)
      as [(_ & _ & H) | (_ & _ & _ & H)]; [|exact H].
    unfold ends_as. trace_cases H;
      unfold query_failed, reported, wrote in *;
      repeat match goal with
             | H : _ \/ _ |- _ => destruct H
             | H : exists _, _ |- _ => destruct H
             | H : _ /\ _ |- _ => destruct H
             end;
      first [ left; eexists; eassumption
            | right; right; right; eexists; split;
              [eassumption | apply nonempty_log] ].
  - destruct (early_run_cases exec found connect module d)
      as [(_ & _ & H) | (_ & _ & _ & H)]; [|exact H].
    unfold ends_as. trace_cases H;
      unfold query_failed, reported, wrote in *;
      repeat match goal with
             | H : _ \/ _ |- _ => destruct H
             | H : exists _, _ |- _ => destruct H
             | H : _ /\ _ |- _ => destruct H
             end;
      first [ left; eexists; eassumption
            | right; right; right; eexists; split;
              [eassumption | apply nonempty_log] ].
Qed.

(** X2. In check mode no [ALTER SYSTEM] is executed, in either variant and
    whatever the server answers. *)
Theorem check_mode_never_writes :
  forall (module : AnsibleModule) (d : db),
    check_mode module = true ->
    writes (statements (Modern.main exec found connect module d).2) = [] /\
    writes (statements (Early.main exec found connect module d).2) = [].
Proof.
  intros module d Hcm. split.
  - destruct (modern_run_cases exec found connect module d)
      as [(_ & _ & H) | (H & _)]; [|rewrite H; reflexivity].
    trace_cases H; trace_facts; subst; first [reflexivity | congruence].
  - destruct (early_run_cases exec found connect module d)
      as [(_ & _ & H) | (H & _)]; [|rewrite H; reflexivity].
    trace_cases H; trace_facts; subst; first [reflexivity | congruence].
Qed.

(** X3. The modern [main] writes last and only after both checks: either
    no [ALTER SYSTEM] was executed, or the run was not in check mode and
    executed exactly the configurability check, the check of its state and
    then the write of that state, on the name it was given. *)
Theorem modern_write_comes_last :
  forall (module : AnsibleModule) (d : db),
    let guc := params module !!! "guc" in
    let value := params module !!! "value" in
    let state := params module !!! "state" in
    let r := Modern.main exec found connect module d in
    writes (statements r.2) = [] \/
    check_mode module = false /\
    (state = "absent" /\
     statements r.2 = [Q_is_guc_configurable guc; Q_is_guc_default guc;
                       Q_do_guc_reset guc] \/
     state = "present" /\
     statements r.2 = [Q_is_guc_configurable guc; Q_guc_matches guc value;
                       Q_do_guc_set guc value]).
Proof.
  intros module d. cbv zeta.
  destruct (modern_run_cases exec found connect module d)
    as [(_ & _ & H) | (H & _)]; [|left; rewrite H; reflexivity].
  trace_cases H; trace_facts; subst;
    first [left; reflexivity | right; solve [auto]].
Qed.

(** X4. The early [main] writes last and only after its checks: either no
    [ALTER SYSTEM] was executed, or the run was not in check mode and
    executed the preset check, the existence check, the check of its state
    (and, to reset, the query of the boot value) and then the write. *)
Theorem early_write_comes_last :
  forall (module : AnsibleModule) (d : db),
    let option := params module !!! "option" in
    let value := params module !!! "value" in
    let state := params module !!! "state" in
    let r := Early.main exec found connect module d in
    writes (statements r.2) = [] \/
    check_mode module = false /\
    (state = "absent" /\
     (exists default,
        statements r.2 = [Q_option_ispreset option; Q_option_exists option;
                          Q_option_isdefault option;
                          Q_option_get_default_value option;
                          Q_option_reset option default]) \/
     state = "present" /\
     statements r.2 = [Q_option_ispreset option; Q_option_exists option;
                       Q_option_matches option value;
                       Q_option_set option value]).
Proof.
  intros module d. cbv zeta.
  destruct (early_run_cases exec found connect module d)
    as [(_ & _ & H) | (H & _)]; [|left; rewrite H; reflexivity].
  trace_cases H; trace_facts; subst;
    first [left; reflexivity | right; solve [eauto 6]].
Qed.

(** X5. A run warns at most once, and a run that warns did nothing else:
    the modern [main] executed only the configurability check, the early
    one only the preset check, or that and the existence check, and the
    run reports [changed = False]. *)
Theorem a_warning_means_no_change :
  forall (module : AnsibleModule) (d : db),
    (let guc := params module !!! "guc" in
     let r := Modern.main exec found connect module d in
     warnings r.2 = [] \/
     warnings r.2 = [modern_warning guc] /\
     statements r.2 = [Q_is_guc_configurable guc] /\
     exits_with r (exit_json false guc)) /\
    (let option := params module !!! "option" in
     let r := Early.main exec found connect module d in
     warnings r.2 = [] \/
     warnings r.2 = [early_preset_warning option] /\
     statements r.2 = [Q_option_ispreset option] /\
     exits_with r (exit_json false option) \/
     warnings r.2 = [early_missing_warning option] /\
     statements r.2 = [Q_option_ispreset option; Q_option_exists option] /\
     exits_with r (exit_json false option)).
Proof.
  intros module d. split; cbv zeta.
  - destruct (modern_run_cases exec found connect module d)
      as [(_ & _ & H) | (_ & H & _)]; [|auto].
    trace_cases H; auto.
  - destruct (early_run_cases exec found connect module d)
      as [(_ & _ & H) | (_ & H & _)]; [|auto].
    trace_cases H; auto.
Qed.

(** X6. Outside check mode a run reports [changed = True] only when its
    last statement was the [ALTER SYSTEM] and the server did not reject
    it, in both variants. *)
Theorem changed_needs_an_accepted_write :
  forall (module : AnsibleModule) (d : db),
    check_mode module = false ->
    (let r := Modern.main exec found connect module d in
     exits_with r (exit_json true (params module !!! "guc")) ->
     exists log w d',
       statements r.2 = (log ++ [w])%list /\ is_write w = true /\
       forall m, (exec w d').1 <> QueryFailed m) /\
    (let r := Early.main exec found connect module d in
     exits_with r (exit_json true (params module !!! "option")) ->
     exists log w d',
       statements r.2 = (log ++ [w])%list /\ is_write w = true /\
       forall m, (exec w d').1 <> QueryFailed m).
Proof.
  intros module d Hcm. split; cbv zeta; intros Hexit.
  - destruct (modern_run_cases exec found connect module d)
      as [(_ & _ & H) | (_ & _ & H & _)]; [|destruct (H _ Hexit)].
    trace_cases H; trace_facts; subst; changed_cases.
  - destruct (early_run_cases exec found connect module d)
      as [(_ & _ & H) | (_ & _ & H & _)]; [|destruct (H _ Hexit)].
    trace_cases H; trace_facts; subst; changed_cases.
Qed.

End AnyRunProperties.

Section Failures.

Context {db : Type}.
Variable exec : Query -> db -> Reply * db.
Variable found : bool.
Variable connect : gmap string string -> option string.

(** X7. When the server rejects every [ALTER SYSTEM] with one message, a
    run that got as far as sending one ends in [fail_json] with that
    message after "Database query failed: ", in both variants. *)
Theorem rejected_write_is_reported :
  forall (module : AnsibleModule) (d : db) (msg : string),
    (forall w d', is_write w = true -> (exec w d').1 = QueryFailed msg) ->
    (let r := Modern.main exec found connect module d in
     writes (statements r.2) <> [] ->
     exits_with r (fail_json ("Database query failed: " ++ msg))) /\
    (let r := Early.main exec found connect module d in
     writes (statements r.2) <> [] ->
     exits_with r (fail_json ("Database query failed: " ++ msg))).
Proof.
  intros module d msg Hrej. split; cbv zeta; intros Hw.
  - destruct (modern_run_cases exec found connect module d)
      as [(_ & _ & H) | (H & _)]; [|rewrite H in Hw; destruct Hw; reflexivity].
    trace_cases H; trace_facts; subst;
      try (destruct Hw; reflexivity);
      match goal with
      | Hok : forall m, (exec ?w ?x).1 <> QueryFailed m |- _ =>
          destruct (Hok msg); apply Hrej; reflexivity
      | Hno : (exec ?w ?x).1 = QueryFailed ?m |- _ =>
          rewrite (Hrej w x eq_refl) in Hno; injection Hno as <-; assumption
      end.
  - destruct (early_run_cases exec found connect module d)
      as [(_ & _ & H) | (H & _)]; [|rewrite H in Hw; destruct Hw; reflexivity].
    trace_cases H; trace_facts; subst;
      try (destruct Hw; reflexivity);
      match goal with
      | Hok : forall m, (exec ?w ?x).1 <> QueryFailed m |- _ =>
          destruct (Hok msg); apply Hrej; reflexivity
      | Hno : (exec ?w ?x).1 = QueryFailed ?m |- _ =>
          rewrite (Hrej w x eq_refl) in Hno; injection Hno as <-; assumption
      end.
Qed.

(** X8. When the server raises on the first statement of a connected run,
    the run ends in [fail_json] with the server's message after "Database
    query failed: ", having executed that statement only and warned of
    nothing, in both variants. *)
Theorem first_statement_failure_is_reported :
  forall (module : AnsibleModule) (d : db) (msg : string),
    connect (connect_kwargs (params module)) = None ->
    ((exec (Q_is_guc_configurable (params module !!! "guc")) d).1
       = QueryFailed msg ->
     let r := Modern.main exec true connect module d in
     exits_with r (fail_json ("Database query failed: " ++ msg)) /\
     statements r.2 = [Q_is_guc_configurable (params module !!! "guc")] /\
     warnings r.2 = []) /\
    ((exec (Q_option_ispreset (params module !!! "option")) d).1
       = QueryFailed msg ->
     let r := Early.main exec true connect module d in
     exits_with r (fail_json ("Database query failed: " ++ msg)) /\
     statements r.2 = [Q_option_ispreset (params module !!! "option")] /\
     warnings r.2 = []).
Proof.
  intros module d msg Hconn. split; intros Hfail; cbv zeta.
  - unfold Modern.main, exits_with. rewrite Hconn. cbn [negb].
    unfold bind, try_except, Modern.reconcile, Modern.is_guc_configurable,
      bind, execute.
    cbn [open_cursor conn].
    destruct (exec (Q_is_guc_configurable (params module !!! "guc")) d)
      as [r d'].
    cbn in Hfail. subst r. cbn. auto.
  - unfold Early.main, exits_with. rewrite Hconn. cbn [negb].
    unfold bind, try_except, Early.reconcile, Early.option_ispreset,
      bind, execute.
    cbn [open_cursor conn].
    destruct (exec (Q_option_ispreset (params module !!! "option")) d)
      as [r d'].
    cbn in Hfail. subst r. cbn. auto.
Qed.

End Failures.

Lemma rejected_write_is_reported_witness :
  exits_with
    (Modern.main demo_read_only true demo_connect demo_set_work_mem
       demo_instance)
    (fail_json ("Database query failed: "
                ++ "cannot execute ALTER SYSTEM in a read-only transaction")) /\
  exits_with
    (Early.main demo_read_only true demo_connect demo_set_work_mem
       demo_instance)
    (fail_json ("Database query failed: "
                ++ "cannot execute ALTER SYSTEM in a read-only transaction")).
Proof.
  assert (Hrej : forall w d', is_write w = true ->
                   (demo_read_only w d').1 = QueryFailed
                     "cannot execute ALTER SYSTEM in a read-only transaction").
  { intros w d' H. unfold demo_read_only. rewrite H. reflexivity. }
  destruct (rejected_write_is_reported demo_read_only true demo_connect
              demo_set_work_mem demo_instance _ Hrej) as [Hm He].
  split; [apply Hm | apply He]; vm_compute; discriminate.
Defined.

Lemma first_statement_failure_is_reported_witness :
  exits_with
    (Modern.main demo_unavailable true demo_connect demo_set_work_mem
       demo_instance)
    (fail_json ("Database query failed: "
                ++ "server closed the connection unexpectedly")) /\
  exits_with
    (Early.main demo_unavailable true demo_connect demo_set_work_mem
       demo_instance)
    (fail_json ("Database query failed: "
                ++ "server closed the connection unexpectedly")).
Proof.
  destruct (first_statement_failure_is_reported demo_unavailable demo_connect
              demo_set_work_mem demo_instance
              "server closed the connection unexpectedly" eq_refl)
    as [Hm He].
  split; [apply Hm | apply He]; reflexivity.
Defined.

(** ** The connection keywords *)

(** The keyword of a connection option is present exactly when the option
    is not empty, and then carries its value. *)
Lemma kw_of_params_key p k k' :
  params_map !! k = Some k' ->
  kw_of_params p !! k' =
  if String.eqb (p !!! k) "" then None else Some (p !!! k).
Proof.
  intros Hk. rewrite lookup_total_alt.
  destruct (kw_of_params p !! k') as [h|] eqn:E.
  - apply kw_of_params_lookup in E as (k0 & Hk0 & Hp & Hne).
    assert (k0 = k) as -> by (apply (params_map_inj _ _ _ Hk0 Hk)).
    rewrite Hp. cbn. apply String.eqb_neq in Hne. rewrite Hne.
    reflexivity.
  - destruct (p !! k) as [h|] eqn:Hp; cbn; [|reflexivity].
    destruct (String.eqb h "") eqn:Hh; [reflexivity|].
    apply String.eqb_neq in Hh.
    assert (Hsome : kw_of_params p !! k' = Some h).
    { apply kw_of_params_lookup. exists k. auto. }
    congruence.
Qed.

Lemma connect_kwargs_other p k' :
  k' <> "host" -> connect_kwargs p !! k' = kw_of_params p !! k'.
Proof.
  intros Hne. unfold connect_kwargs.
  destruct (is_localhost (kw_of_params p) && _); [|reflexivity].
  apply lookup_insert_ne. congruence.
Qed.

(** X9. The keywords handed to [psycopg2.connect]: [user], [password] and
    [port] are passed exactly when the options [login_user],
    [login_password] and [port] are not empty, with the option's value;
    no other keyword than these and [host] is ever passed, and none with
    an empty value. *)
Theorem connect_kwargs_forwards_nonempty_options :
  forall p : gmap string string,
    connect_kwargs p !! "user" =
      (if String.eqb (p !!! "login_user") "" then None
       else Some (p !!! "login_user")) /\
    connect_kwargs p !! "password" =
      (if String.eqb (p !!! "login_password") "" then None
       else Some (p !!! "login_password")) /\
    connect_kwargs p !! "port" =
      (if String.eqb (p !!! "port") "" then None else Some (p !!! "port")) /\
    (forall k' v,
       connect_kwargs p !! k' = Some v ->
       k' ∈ ["host"; "user"; "password"; "port"] /\ v <> "").
Proof.
  intros p. repeat split.
  - rewrite connect_kwargs_other by discriminate.
    apply kw_of_params_key. reflexivity.
  - rewrite connect_kwargs_other by discriminate.
    apply kw_of_params_key. reflexivity.
  - rewrite connect_kwargs_other by discriminate.
    apply kw_of_params_key. reflexivity.
  - destruct (String.eqb k' "host") eqn:E.
    + apply String.eqb_eq in E. subst k'. apply list_elem_of_here.
    + apply String.eqb_neq in E. rewrite connect_kwargs_other in H by exact E.
      apply kw_of_params_lookup in H as (k & Hk & _).
      apply params_map_lookup in Hk.
      rewrite !elem_of_cons, !elem_of_nil in Hk.
      rewrite !elem_of_cons.
      repeat match goal with
             | H : _ \/ _ |- _ => destruct H
             | H : False |- _ => destruct H
             | H : (_, _) = (_, _) |- _ => injection H as -> ->
             end; auto.
  - intros ->. revert H. unfold connect_kwargs.
    destruct (is_localhost (kw_of_params p)); cbn [andb].
    + destruct (String.eqb (p !!! "login_unix_socket") "") eqn:E; cbn [negb].
      * intros H. apply kw_of_params_lookup in H as (k & _ & _ & Hne).
        apply Hne. reflexivity.
      * destruct (String.eqb k' "host") eqn:Ek.
        -- apply String.eqb_eq in Ek. subst k'. rewrite lookup_insert_eq.
           intros [= H]. rewrite H in E. discriminate E.
        -- apply String.eqb_neq in Ek.
           rewrite lookup_insert_ne by congruence.
           intros H. apply kw_of_params_lookup in H as (k & _ & _ & Hne).
           apply Hne. reflexivity.
    + intros H. apply kw_of_params_lookup in H as (k & _ & _ & Hne).
      apply Hne. reflexivity.
Qed.

(** ** Further runs on the catalog model *)

Section PgHelpers.

Import Pg.
Implicit Types (s : Session Instance) (i : Instance).

Lemma has_row_spec n i :
  has_row n i = true <-> exists r, In r (pg_settings i) /\ pg_name r = n.
Proof.
  unfold has_row. rewrite existsb_exists.
  split; intros (r & Hin & H); exists r; (split; [exact Hin|]).
  - apply String.eqb_eq. exact H.
  - apply String.eqb_eq. exact H.
Qed.

Lemma run_guc_exists guc s :
  exists rows n,
    Modern.guc_exists exec guc s =
    (Ok (has_row guc (conn s)), ran s (conn s) (Q_guc_exists guc) rows n).
Proof.
  unfold Modern.guc_exists, bind, execute, get_rowcount. cbn [exec fst snd].
  unfold select_where_name. cbn [rowcount ret].
  rewrite rowcount_has_row. eexists. eexists. reflexivity.
Qed.

Lemma run_get_default_guc_value guc s :
  exists rows n,
    Modern.get_default_guc_value exec guc s =
    (match first_row guc (conn s) with
     | Some r => Ok (VStr (pg_boot_val r))
     | None => Raise (TypeError "'NoneType' object is not subscriptable")
     end,
     ran s (conn s) (Q_get_default_guc_value guc) rows n).
Proof.
  unfold Modern.get_default_guc_value.
  rewrite <- head_filter_named.
  unfold bind, execute, fetchone. cbn [exec fst snd].
  unfold select_where_name.
  destruct (List.filter (named guc) (pg_settings (conn s))) as [|r l];
    cbn; eexists; eexists; reflexivity.
Qed.

End PgHelpers.

(** X10. The two helpers [main] never calls, on the catalog model:
    [get_default_guc_value] returns the boot value of the first row of the
    name and raises [TypeError] on [None[0]] when there is none;
    [guc_exists] returns whether the name has a row.  Neither sends a
    write or changes the instance. *)
Theorem unused_helpers_read_the_catalog :
  forall (guc : string) (s : Session Pg.Instance),
    (exists s',
       Modern.get_default_guc_value Pg.exec guc s =
         (match Pg.first_row guc (conn s) with
          | Some r => Ok (VStr (Pg.pg_boot_val r))
          | None => Raise (TypeError "'NoneType' object is not subscriptable")
          end, s') /\
       statements s' = (statements s ++ [Q_get_default_guc_value guc])%list /\
       conn s' = conn s) /\
    (exists (b : bool) s',
       Modern.guc_exists Pg.exec guc s = (Ok b, s') /\
       (b = true <->
        exists r, In r (Pg.pg_settings (conn s)) /\ Pg.pg_name r = guc) /\
       statements s' = (statements s ++ [Q_guc_exists guc])%list /\
       conn s' = conn s).
Proof.
  intros guc s. split.
  - destruct (run_get_default_guc_value guc s) as (rows & n & E).
    eexists. split; [exact E|]. split; reflexivity.
  - destruct (run_guc_exists guc s) as (rows & n & E).
    eexists. eexists. split; [exact E|]. split; [apply has_row_spec|].
    split; reflexivity.
Qed.

(** ** The early variant when the server decides on the write *)

(** X13. Dry-run equivalence in the early variant, for a name and a value
    that hold no single quote, the server deciding on the write: a
    check-mode run of the early [main] sends no write, leaves the instance
    as it found it and reports a [changed] value.  When that value is
    [False], the run without check mode that follows reports [False] and
    sends no write; when it is [True], the following run sends exactly the
    one write, and reports [True] when the server accepts it and ends in
    [fail_json] with the server's message when it does not. *)
Theorem early_dry_run_equivalence :
  forall (write : Query -> Pg.Instance -> Reply * Pg.Instance)
         (connect : gmap string string -> option string)
         (module : AnsibleModule) (i : Pg.Instance),
    connect (connect_kwargs (params module)) = None ->
    Lexing.no_squote (params module !!! "option") = true ->
    Lexing.no_squote (params module !!! "value") = true ->
    let option := params module !!! "option" in
    let w := early_write (params module !!! "state") option
               (params module !!! "value") i in
    let dry :=
      Early.main (Pg.serve write) true connect (with_check_mode true module) i in
    let real :=
      Early.main (Pg.serve write) true connect (with_check_mode false module)
        (conn dry.2) in
    writes (statements dry.2) = [] /\
    conn dry.2 = i /\
    exists c : bool,
      exits_with dry (exit_json c option) /\
      (c = false ->
       exits_with real (exit_json false option) /\
       writes (statements real.2) = []) /\
      (c = true ->
       writes (statements real.2) = [w] /\
       ((forall msg, (write w i).1 <> QueryFailed msg) ->
        exits_with real (exit_json true option)) /\
       (forall msg, (write w i).1 = QueryFailed msg ->
        exits_with real (fail_json ("Database query failed: " ++ msg)))).
Proof.
  intros write connect module i Hconn _ _ option w dry real.
  destruct (early_main_served write connect (with_check_mode true module) i
              Hconn) as (E1 & L1 & _ & C1).
  fold dry in E1, L1, C1.
  assert (Hafter : conn dry.2 = i) by (rewrite C1; reflexivity).
  destruct (early_main_served write connect (with_check_mode false module)
              (conn dry.2) Hconn) as (E2 & L2 & _).
  fold real in E2, L2. rewrite Hafter in E2, L2.
  split; [rewrite L1, writes_early_log; reflexivity|].
  split; [exact Hafter|].
  exists (early_changed module i). split; [exact E1|].
  rewrite L2, writes_early_log.
  unfold early_served_exit, early_writes in *.
  change (early_changed (with_check_mode false module) i)
    with (early_changed module i) in *.
  cbn [check_mode with_check_mode negb andb params] in *.
  fold option in E2. fold w in E2. fold option. fold w.
  split; intros Hc; rewrite Hc in *.
  - auto.
  - split; [reflexivity|]. unfold exit_after_write in E2. split.
    + intros Hok. destruct (write w i).1 as [msg| |];
        [destruct (Hok msg); reflexivity | exact E2 | exact E2].
    + intros msg Hno. rewrite Hno in E2. exact E2.
Qed.

Lemma early_dry_run_equivalence_witness :
  exists c : bool,
    exits_with
      (Early.main demo_validating true demo_connect
         (with_check_mode true demo_set_empty) demo_instance)
      (exit_json c "work_mem") /\
    (c = true ->
     exits_with
       (Early.main demo_validating true demo_connect
          (with_check_mode false demo_set_empty)
          (conn (Early.main demo_validating true demo_connect
                   (with_check_mode true demo_set_empty)
                   demo_instance).2))
       (fail_json
          ("Database query failed: "
           ++ "invalid value for parameter work_mem"))).
Proof.
  destruct (early_dry_run_equivalence demo_validate demo_connect
              demo_set_empty demo_instance eq_refl eq_refl eq_refl)
    as (_ & _ & c & E & _ & H).
  exists c. split; [exact E|]. intros Hc.
  destruct (H Hc) as (_ & _ & Hno). apply Hno. reflexivity.
Defined.

(** X16. Changed postcondition of the apply operations of the early
    variant, for a name and a value that hold no single quote, on a
    parameter whose first row is [r], the server deciding on the write.
    [option_reset] returns [False] after its check alone when the boot
    value of [r] is its persisted value; otherwise it fetches the boot
    value and sends one [ALTER SYSTEM SET] of it, returning [True] when
    the server accepts the write and raising the server's error when it
    does not.  [option_set] returns [False] after its check alone when the
    value in effect is the desired one; otherwise it sends one
    [ALTER SYSTEM SET] of the desired value, with the same two outcomes. *)
Theorem early_apply_postcondition :
  forall (write : Query -> Pg.Instance -> Reply * Pg.Instance)
         (option value : string) (s : Session Pg.Instance) (r : Pg.Setting),
    Lexing.no_squote option = true ->
    Lexing.no_squote value = true ->
    Pg.first_row option (conn s) = Some r ->
    let reset := Q_option_reset option (Pg.pg_boot_val r) in
    let set := Q_option_set option value in
    (exists s',
       Early.option_reset (Pg.serve write) option s =
         ((if Pg.unchanged r then Ok false
           else write_result (write reset (conn s)).1), s') /\
       statements s' =
         (statements s ++
          if Pg.unchanged r then [Q_option_isdefault option]
          else [Q_option_isdefault option; Q_option_get_default_value option;
                reset])%list) /\
    (exists s',
       Early.option_set (Pg.serve write) option value s =
         ((if String.eqb (Pg.pg_setting r) value then Ok false
           else write_result (write set (conn s)).1), s') /\
       statements s' =
         (statements s ++
          if String.eqb (Pg.pg_setting r) value
          then [Q_option_matches option value]
          else [Q_option_matches option value; set])%list).
Proof.
  intros write option value s r _ _ Hr reset set. subst reset set. split.
  - destruct (served_option_reset write option s r Hr) as (s' & E & L & _).
    exists s'. split; [exact E|]. rewrite L.
    destruct (Pg.unchanged r); reflexivity.
  - assert (Hrow : Pg.has_row option (conn s) = true).
    { apply find_some in Hr as [Hin Hn]. unfold Pg.has_row.
      apply existsb_exists. exists r. auto. }
    destruct (served_option_set write option value s Hrow) as (s' & E & L & _).
    unfold Pg.first_row in Hr. rewrite (matches_find _ _ _ _ Hr) in E, L.
    exists s'. split; [exact E|]. rewrite L.
    destruct (String.eqb (Pg.pg_setting r) value); reflexivity.
Qed.

Lemma early_apply_postcondition_witness :
  exists s',
    Early.option_reset demo_validating "listen_addresses"
      (open_cursor demo_instance) = (Ok true, s') /\
    statements s' =
      [Q_option_isdefault "listen_addresses";
       Q_option_get_default_value "listen_addresses";
       Q_option_reset "listen_addresses" "localhost"].
Proof.
  destruct (early_apply_postcondition demo_validate "listen_addresses" ""
              (open_cursor demo_instance)
              (Pg.mkSetting "listen_addresses" "*" "postmaster" "localhost" "*")
              eq_refl eq_refl eq_refl) as [(s' & E & L) _].
  exists s'. split; [exact E | exact L].
Defined.

(** ** The texts of the writes *)

Section WriteTexts.

Import Lexing.




End WriteTexts.

(** X17. The texts of the two writes of the modern variant, whatever the
    name and the value: the name, with any character it holds, is read
    back as one quoted identifier, the value is the [%s] placeholder, and
    the shape of the statement does not depend on either. *)
Theorem modern_write_texts :
  forall guc value : string,
    Lexing.lex (sql_text (Q_do_guc_reset guc)) =
      Some [Lexing.T_word "ALTER"; Lexing.T_word "SYSTEM";
            Lexing.T_word "RESET"; Lexing.T_ident guc] /\
    Lexing.lex (sql_text (Q_do_guc_set guc value)) =
      Some [Lexing.T_word "ALTER"; Lexing.T_word "SYSTEM";
            Lexing.T_word "SET"; Lexing.T_ident guc;
            Lexing.T_word "TO"; Lexing.T_param] /\
    (forall guc' value' : string,
       Lexing.structure (Q_do_guc_reset guc) =
         Lexing.structure (Q_do_guc_reset guc') /\
       Lexing.structure (Q_do_guc_set guc value) =
         Lexing.structure (Q_do_guc_set guc' value')).
Proof.
  intros guc value. split; [apply lex_do_guc_reset|].
  split; [apply lex_do_guc_set|].
  intros guc' value'. unfold Lexing.structure.
  rewrite !lex_do_guc_reset, !lex_do_guc_set. split; reflexivity.
Qed.



(** The witnesses of the properties over arbitrary servers. *)

Lemma check_mode_never_writes_witness :
  writes
    (statements
       (Modern.main Pg.exec true demo_connect
          (demo_module "work_mem" "8MB" "present" true) demo_instance).2)
    = [] /\
  writes
    (statements
       (Early.main Pg.exec true demo_connect
          (demo_module "work_mem" "8MB" "present" true) demo_instance).2)
    = [].
Proof.
  exact (check_mode_never_writes Pg.exec true demo_connect
           (demo_module "work_mem" "8MB" "present" true) demo_instance
           eq_refl).
Defined.

Lemma changed_needs_an_accepted_write_witness :
  exists log w d',
    statements
      (Modern.main Pg.exec true demo_connect demo_set_work_mem
         demo_instance).2 = (log ++ [w])%list /\
    is_write w = true /\
    forall m, (Pg.exec w d').1 <> QueryFailed m.
Proof.
  destruct (changed_needs_an_accepted_write Pg.exec true demo_connect
              demo_set_work_mem demo_instance eq_refl) as [Hm _].
  apply Hm. reflexivity.
Defined.

(** ** The guard of the early variant *)

Section PgEarlyGuard.

Import Pg.
Implicit Types (s : Session Instance) (i : Instance).

Lemma is_preset_spec i n :
  is_preset n i = true <->
  exists r, In r (pg_settings i) /\ pg_name r = n /\ pg_context r = "internal".
Proof.
  unfold is_preset, exists_row. rewrite existsb_exists.
  split; intros (r & Hin & H); exists r; (split; [exact Hin|]).
  - apply andb_prop in H as [Hc Hn]. unfold named in Hn. unfold internal in Hc.
    apply String.eqb_eq in Hn, Hc. auto.
  - destruct H as [Hn Hc]. apply andb_true_intro. unfold named, internal.
    split; apply String.eqb_eq; assumption.
Qed.

Lemma early_writes_unchanged module i :
  early_changed module i = false -> early_writes module i = [].
Proof. intros E. unfold early_writes. rewrite E, andb_false_r. reflexivity. Qed.

Lemma early_after_unchanged module i :
  early_changed module i = false -> early_after module i = i.
Proof.
  intros E. unfold early_after. rewrite (early_writes_unchanged _ _ E).
  reflexivity.
Qed.

End PgEarlyGuard.

(** X20. The preset guard of the early variant: when some row of the name
    is of the internal context, a run of the early [main], whatever the
    desired state, value and check-mode flag, sends no write, emits the
    "is preset" warning, exits with [changed = False] and leaves the
    instance as it found it. *)
Theorem early_preset_guard :
  forall (connect : gmap string string -> option string)
         (module : AnsibleModule) (i : Pg.Instance),
    connect (connect_kwargs (params module)) = None ->
    let option := params module !!! "option" in
    (exists r, In r (Pg.pg_settings i) /\ Pg.pg_name r = option /\
               Pg.pg_context r = "internal") ->
    let r := Early.main Pg.exec true connect module i in
    exits_with r (exit_json false option) /\
    writes (statements r.2) = [] /\
    warnings r.2 = [early_preset_warning option] /\
    conn r.2 = i.
Proof.
  intros connect module i Hconn option Hp r.
  apply is_preset_spec in Hp.
  destruct (early_main_pg connect module i Hconn) as (E & W & Wn & C).
  fold r in E, W, Wn, C.
  assert (Hch : early_changed module i = false).
  { unfold early_changed, early_guard. fold option. rewrite Hp. reflexivity. }
  rewrite Hch in E. rewrite (early_writes_unchanged _ _ Hch) in W.
  rewrite (early_after_unchanged _ _ Hch) in C.
  unfold early_warnings in Wn. fold option in Wn. rewrite Hp in Wn. auto.
Qed.

Lemma early_preset_guard_witness :
  exits_with
    (Early.main Pg.exec true demo_connect demo_set_block_size demo_instance)
    (exit_json false "block_size") /\
  writes
    (statements
       (Early.main Pg.exec true demo_connect demo_set_block_size
          demo_instance).2) = [] /\
  warnings
    (Early.main Pg.exec true demo_connect demo_set_block_size demo_instance).2
  = [early_preset_warning "block_size"] /\
  conn (Early.main Pg.exec true demo_connect demo_set_block_size demo_instance).2
  = demo_instance.
Proof.
  apply (early_preset_guard demo_connect demo_set_block_size demo_instance
           eq_refl).
  exists (Pg.mkSetting "block_size" "8192" "internal" "8192" "8192").
  split; [right; left; reflexivity | split; reflexivity].
Defined.
